(** * Database credential backend: plugin RPC stubs, backend factory,
      statement templating and the creds/<role> handler.

    Shallow embedding of

    - [dbs/plugin.go]            the go-plugin / net/rpc client and server stubs,
    - the [dbs] factory file     [Factory], [DatabaseConfig], [queryHelper],
    - the [database] path file   [pathCredsCreateRead].

    Go strings are byte sequences and are modelled by [string]; Go maps with
    string keys by [gmap string _]; a Go [error] by the inductive [error]
    below, [nil] being [None]. *)

From Stdlib Require Import ZArith Ascii String List Permutation.
From stdpp Require Import base option list gmap strings fin_maps.

(* ===================================================================== *)
(** * Part I. Definitions                                                  *)
(* ===================================================================== *)

(** ** The Go standard library functions the sources call *)

Module strings.

(** [strings.Replace(s, old, new, n)] for a non-empty [old]: a left-to-right
    scan that, while replacements remain ([limit], [None] is "no limit"),
    tests whether [old] starts at the current byte, emits [new] and jumps
    over the occurrence ([skip] counts the bytes of it still to be dropped),
    and otherwise copies the byte. *)
Fixpoint replace_scan (old new : string) (limit : option nat) (skip : nat)
    (s : string) : string :=
  match s with
  | EmptyString => EmptyString
  | String c s' =>
      match skip with
      | S k => replace_scan old new limit k s'
      | O =>
          match limit with
          | Some O => s
          | _ =>
              if String.prefix old s
              then new +:+ replace_scan old new (pred <$> limit)
                             (String.length old - 1) s'
              else String c (replace_scan old new limit 0 s')
          end
      end
  end.

(** The empty [old] matches at the start and after every character
    (bytes here; Go steps by UTF-8 sequences, the same thing on ASCII
    text). *)
Fixpoint replace_empty (new : string) (limit : option nat) (s : string)
    : string :=
  match limit with
  | Some O => s
  | _ =>
      new +:+ match s with
              | EmptyString => EmptyString
              | String c s' =>
                  String c (replace_empty new (pred <$> limit) s')
              end
  end.

(** [func Replace(s, old, new string, n int) string]: [n < 0] lifts the
    limit on the number of replacements. *)
Definition Replace (s old new : string) (n : Z) : string :=
  if (String.eqb old new || (n =? 0)%Z)%bool then s
  else
    let limit := if (n <? 0)%Z then None else Some (Z.to_nat n) in
    match old with
    | EmptyString => replace_empty new limit s
    | String _ _ => replace_scan old new limit 0 s
    end.

End strings.

(** ** Statement templating: [queryHelper] *)

(** [fmt.Sprintf("{{%s}}", k)] *)
Definition token (k : string) : string := "{{" +:+ k +:+ "}}".

(** The body of the loop: [tpl = strings.Replace(tpl, "{{k}}", v, -1)]. *)
Definition queryHelper_step (tpl : string) (kv : string * string) : string :=
  strings.Replace tpl (token kv.1) kv.2 (-1).

(** [for k, v := range data { ... }; return tpl], for the sequence of
    entries in which [range] hands them out. *)
Definition queryHelper_range (tpl : string) (entries : list (string * string))
    : string :=
  fold_left queryHelper_step entries tpl.

(** Go leaves the iteration order of a map unspecified: [range data] may
    yield the entries of [data] in any order, each exactly once. *)
Definition range_order (data : gmap string string)
    (entries : list (string * string)) : Prop :=
  entries ≡ₚ map_to_list data.

(** [func queryHelper(tpl string, data map[string]string) string], as the
    relation between its arguments and the strings it may return. *)
Definition queryHelper (tpl : string) (data : gmap string string)
    (out : string) : Prop :=
  ∃ entries, range_order data entries ∧ out = queryHelper_range tpl entries.

(** Templates as the statements of a role are written: literal text
    interleaved with [{{key}}] placeholders. *)
Inductive chunk : Type :=
  | Lit (text : string)
  | Tok (key : string).

Definition render_chunk (c : chunk) : string :=
  match c with
  | Lit text => text
  | Tok key => token key
  end.

Fixpoint render (cs : list chunk) : string :=
  match cs with
  | [] => EmptyString
  | c :: cs' => render_chunk c +:+ render cs'
  end.

Fixpoint has_char (x : ascii) (s : string) : bool :=
  match s with
  | EmptyString => false
  | String c s' => (Ascii.eqb c x || has_char x s')%bool
  end.

(** Neither ['{'] nor ['}'] occurs in [s]. *)
Definition brace_free (s : string) : bool :=
  (negb (has_char "{" s) && negb (has_char "}" s))%bool.

Definition chunk_wf (c : chunk) : bool :=
  match c with
  | Lit text => brace_free text
  | Tok key => brace_free key
  end.

(** Simultaneous substitution: what a template engine that looks every
    placeholder up once would produce. *)
Definition subst_chunk (data : gmap string string) (c : chunk) : chunk :=
  match c with
  | Lit text => Lit text
  | Tok key =>
      match data !! key with
      | Some v => Lit v
      | None => Tok key
      end
  end.

Definition subst (data : gmap string string) (cs : list chunk) : list chunk :=
  subst_chunk data <$> cs.

(** ** Go's [error] values

    Sentinel errors are compared by identity in Go and get a constructor of
    their own; the others carry their message. *)
Inductive error : Type :=
  | ErrPermissionDenied              (* logical.ErrPermissionDenied *)
  | ErrUnsupportedDatabaseType       (* dbs.ErrUnsupportedDatabaseType *)
  | ErrShutdown                      (* net/rpc.ErrShutdown *)
  | ServerError (msg : string)       (* net/rpc.ServerError(msg) *)
  | errorString (msg : string)       (* errors.New(msg), fmt.Errorf(...) *)
  | NotFoundConfig (name : string).  (* the storage layer's "no such
                                        configuration", see [getDatabaseConfig] *)

(** The [Error() string] method. *)
Definition Error (e : error) : string :=
  match e with
  | ErrPermissionDenied => "permission denied"
  | ErrUnsupportedDatabaseType => "Unsupported database type"
  | ErrShutdown => "connection is shut down"
  | ServerError msg => msg
  | errorString msg => msg
  | NotFoundConfig name => "database configuration not found: " +:+ name
  end.

(** A method error as the caller of the client stub sees it.  The net/rpc
    server puts the message of the error into the response header, and
    the client rebuilds an [rpc.ServerError] from a header message that is
    not empty: an error whose message is the empty string arrives as
    [nil]. *)
Definition over_wire (err : option error) : option error :=
  match err with
  | None => None
  | Some e =>
      if String.eqb (Error e) "" then None else Some (ServerError (Error e))
  end.

(** [interface{}] values held by configuration maps. *)
Inductive any : Type :=
  | AString (s : string)
  | AInt (n : Z)
  | ABool (b : bool).

(** ** Programs over an interface

    A Go function that calls methods of objects it was handed is embedded
    as the tree of those calls: [Do e k] calls [e] and continues with [k]
    on what the call returned.  The objects themselves are supplied when
    the program is run, as a [handler] over a state [W]; [run] also
    returns the calls made, in order. *)
Inductive Prog (E : Type → Type) (A : Type) : Type :=
  | Ret (a : A)
  | Do (X : Type) (e : E X) (k : X → Prog E A).
Arguments Ret {E A} a.
Arguments Do {E A X} e k.

Fixpoint Prog_bind {E A B} (f : A → Prog E B) (p : Prog E A) : Prog E B :=
  match p with
  | Ret a => f a
  | Do e k => Do e (λ x, Prog_bind f (k x))
  end.

Global Instance Prog_mret E : MRet (Prog E) := λ A a, Ret a.
Global Instance Prog_mbind E : MBind (Prog E) := λ A B f p, Prog_bind f p.

Definition perform {E X} (e : E X) : Prog E X := Do e Ret.

Inductive event (E : Type → Type) : Type :=
  | Ev (X : Type) (e : E X).
Arguments Ev {E X} e.

Definition handler (E : Type → Type) (W : Type) : Type :=
  ∀ X, E X → W → W * X.

Fixpoint run {E W A} (h : handler E W) (p : Prog E A) (w : W)
    : W * A * list (event E) :=
  match p with
  | Ret a => (w, a, [])
  | Do e k =>
      let '(w1, x) := h _ e w in
      let '(w2, a, calls) := run h (k x) w1 in
      (w2, a, Ev e :: calls)
  end.

(** ** [dbs/plugin.go] *)

Module dbs_plugin.

(** Modelled from the spec: the [Statements] struct is declared in another
    file of the package; the spec names its four templates (creation,
    revocation, rollback, renewal).  The stubs only pass it along. *)
Record Statements : Type := {
  CreationStatements : string;
  RevocationStatements : string;
  RollbackStatements : string;
  RenewStatements : string;
}.

(** ---- Request Args Domain ---- *)
Record CreateUserRequest : Type := {
  cu_Statements : Statements;
  cu_Username : string;
  cu_Password : string;
  cu_Expiration : string;
}.

Record RenewUserRequest : Type := {
  rn_Statements : Statements;
  rn_Username : string;
  rn_Expiration : string;
}.

Record RevokeUserRequest : Type := {
  rv_Statements : Statements;
  rv_Username : string;
}.

(** ---- Response Args Domain ---- *)
Record GenerateUsernameResponse : Type := { gu_Username : string }.
Record GenerateExpirationResponse : Type := { ge_Expiration : string }.
Record GeneratePasswordResponse : Type := { gp_Password : string }.

(** The method set of the [DatabaseType] interface, as the stubs use it:
    [impl_m args : DatabaseType X] is the call [impl.m(args)] returning an
    [X].  An implementation is a [handler DatabaseType S]. *)
Inductive DatabaseType : Type → Type :=
  | impl_Type : DatabaseType string
  | impl_CreateUser (statements : Statements)
      (username password expiration : string) : DatabaseType (option error)
  | impl_RenewUser (statements : Statements)
      (username expiration : string) : DatabaseType (option error)
  | impl_RevokeUser (statements : Statements) (username : string)
      : DatabaseType (option error)
  | impl_Initialize (conf : gmap string any) : DatabaseType (option error)
  | impl_Close : DatabaseType (option error)
  | impl_GenerateUsername (displayName : string)
      : DatabaseType (string * option error)
  | impl_GeneratePassword : DatabaseType (string * option error)
  | impl_GenerateExpiration (duration : Z)
      : DatabaseType (string * option error).

(** What net/rpc carries: the gob encoding of an argument or of a reply. *)
Inductive wire : Type :=
  | WEmpty                                          (* struct{}{} *)
  | WString (s : string)
  | WDuration (d : Z)
  | WConf (conf : gmap string any)
  | WCreateUserRequest (r : CreateUserRequest)
  | WRenewUserRequest (r : RenewUserRequest)
  | WRevokeUserRequest (r : RevokeUserRequest)
  | WGenerateUsernameResponse (r : GenerateUsernameResponse)
  | WGenerateExpirationResponse (r : GenerateExpirationResponse)
  | WGeneratePasswordResponse (r : GeneratePasswordResponse).

(** ---- RPC server domain ----
    A method [func (ds *databasePluginRPCServer) M(args, resp) error]
    yields what it stored in [*resp] and the error it returned. *)
Module databasePluginRPCServer.

Definition Type_ : Prog DatabaseType (wire * option error) :=
  t ← perform impl_Type;
  mret (WString t, None).

Definition CreateUser (args : CreateUserRequest)
    : Prog DatabaseType (wire * option error) :=
  err ← perform (impl_CreateUser (cu_Statements args) (cu_Username args)
                   (cu_Password args) (cu_Expiration args));
  mret (WEmpty, err).

Definition RenewUser (args : RenewUserRequest)
    : Prog DatabaseType (wire * option error) :=
  err ← perform (impl_RenewUser (rn_Statements args) (rn_Username args)
                   (rn_Expiration args));
  mret (WEmpty, err).

Definition RevokeUser (args : RevokeUserRequest)
    : Prog DatabaseType (wire * option error) :=
  err ← perform (impl_RevokeUser (rv_Statements args) (rv_Username args));
  mret (WEmpty, err).

Definition Initialize (args : gmap string any)
    : Prog DatabaseType (wire * option error) :=
  err ← perform (impl_Initialize args);
  mret (WEmpty, err).

(** [ds.impl.Close(); return nil] *)
Definition Close : Prog DatabaseType (wire * option error) :=
  _ ← perform impl_Close;
  mret (WEmpty, None).

Definition GenerateUsername (args : string)
    : Prog DatabaseType (wire * option error) :=
  '(username, err) ← perform (impl_GenerateUsername args);
  mret (WGenerateUsernameResponse {| gu_Username := username |}, err).

Definition GeneratePassword : Prog DatabaseType (wire * option error) :=
  '(password, err) ← perform impl_GeneratePassword;
  mret (WGeneratePasswordResponse {| gp_Password := password |}, err).

Definition GenerateExpiration (args : Z)
    : Prog DatabaseType (wire * option error) :=
  '(expiration, err) ← perform (impl_GenerateExpiration args);
  mret (WGenerateExpirationResponse {| ge_Expiration := expiration |}, err).

End databasePluginRPCServer.

(** What the host side of a plugin-backed handle can do: a synchronous
    [rpc.Client.Call(serviceMethod, args, reply)], which yields the reply
    decoded into [reply] (if one arrived) and the error, and
    [plugin.Client.Kill()], which returns nothing. *)
Inductive transport : Type → Type :=
  | rpc_Call (serviceMethod : string) (args : wire)
      : transport (option wire * option error)
  | plugin_Kill : transport unit.

(** ---- RPC client domain ---- *)
Module databasePluginRPCClient.

Definition Type_ : Prog transport string :=
  '(reply, _) ← perform (rpc_Call "Plugin.Type" WEmpty);
  let dbType := match reply with Some (WString s) => s | _ => "" end in
  mret ("plugin-" +:+ dbType).

Definition CreateUser (statements : Statements)
    (username password expiration : string) : Prog transport (option error) :=
  let req := {| cu_Statements := statements; cu_Username := username;
                cu_Password := password; cu_Expiration := expiration |} in
  '(_, err) ← perform (rpc_Call "Plugin.CreateUser" (WCreateUserRequest req));
  mret err.

Definition RenewUser (statements : Statements) (username expiration : string)
    : Prog transport (option error) :=
  let req := {| rn_Statements := statements; rn_Username := username;
                rn_Expiration := expiration |} in
  '(_, err) ← perform (rpc_Call "Plugin.RenewUser" (WRenewUserRequest req));
  mret err.

Definition RevokeUser (statements : Statements) (username : string)
    : Prog transport (option error) :=
  let req := {| rv_Statements := statements; rv_Username := username |} in
  '(_, err) ← perform (rpc_Call "Plugin.RevokeUser" (WRevokeUserRequest req));
  mret err.

Definition Initialize (conf : gmap string any) : Prog transport (option error) :=
  '(_, err) ← perform (rpc_Call "Plugin.Initialize" (WConf conf));
  mret err.

Definition Close : Prog transport (option error) :=
  '(_, err) ← perform (rpc_Call "Plugin.Close" WEmpty);
  mret err.

Definition GenerateUsername (displayName : string)
    : Prog transport (string * option error) :=
  '(reply, err) ← perform (rpc_Call "Plugin.GenerateUsername" (WString displayName));
  let resp := match reply with
              | Some (WGenerateUsernameResponse r) => r
              | _ => {| gu_Username := "" |}
              end in
  mret (gu_Username resp, err).

Definition GeneratePassword : Prog transport (string * option error) :=
  '(reply, err) ← perform (rpc_Call "Plugin.GeneratePassword" WEmpty);
  let resp := match reply with
              | Some (WGeneratePasswordResponse r) => r
              | _ => {| gp_Password := "" |}
              end in
  mret (gp_Password resp, err).

Definition GenerateExpiration (duration : Z)
    : Prog transport (string * option error) :=
  '(reply, err) ← perform (rpc_Call "Plugin.GenerateExpiration" (WDuration duration));
  let resp := match reply with
              | Some (WGenerateExpirationResponse r) => r
              | _ => {| ge_Expiration := "" |}
              end in
  mret (ge_Expiration resp, err).

End databasePluginRPCClient.

(** [DatabasePluginClient] embeds the RPC client and wraps its [Close]. *)
Module DatabasePluginClient.

Definition Close : Prog transport (option error) :=
  err ← databasePluginRPCClient.Close;
  _ ← perform plugin_Kill;
  mret err.

End DatabasePluginClient.

(** *** The transport between the two stubs

    go-plugin registers the server stub under the service name ["Plugin"];
    net/rpc looks the method up by name and decodes the argument into the
    method's argument type. *)
Definition serve (serviceMethod : string) (args : wire)
    : option (Prog DatabaseType (wire * option error)) :=
  if String.eqb serviceMethod "Plugin.Type" then
    match args with WEmpty => Some databasePluginRPCServer.Type_ | _ => None end
  else if String.eqb serviceMethod "Plugin.CreateUser" then
    match args with
    | WCreateUserRequest r => Some (databasePluginRPCServer.CreateUser r)
    | _ => None
    end
  else if String.eqb serviceMethod "Plugin.RenewUser" then
    match args with
    | WRenewUserRequest r => Some (databasePluginRPCServer.RenewUser r)
    | _ => None
    end
  else if String.eqb serviceMethod "Plugin.RevokeUser" then
    match args with
    | WRevokeUserRequest r => Some (databasePluginRPCServer.RevokeUser r)
    | _ => None
    end
  else if String.eqb serviceMethod "Plugin.Initialize" then
    match args with
    | WConf conf => Some (databasePluginRPCServer.Initialize conf)
    | _ => None
    end
  else if String.eqb serviceMethod "Plugin.Close" then
    match args with WEmpty => Some databasePluginRPCServer.Close | _ => None end
  else if String.eqb serviceMethod "Plugin.GenerateUsername" then
    match args with
    | WString s => Some (databasePluginRPCServer.GenerateUsername s)
    | _ => None
    end
  else if String.eqb serviceMethod "Plugin.GeneratePassword" then
    match args with
    | WEmpty => Some databasePluginRPCServer.GeneratePassword
    | _ => None
    end
  else if String.eqb serviceMethod "Plugin.GenerateExpiration" then
    match args with
    | WDuration d => Some (databasePluginRPCServer.GenerateExpiration d)
    | _ => None
    end
  else None.

(** The host's view of one plugin: the state of the implementation inside
    the plugin process, the connection ([None] while it works, [Some e]
    once every call on it fails with [e]) and whether the process runs. *)
Record Host (S : Type) : Type := {
  remote : S;
  link : option error;
  running : bool;
}.
Arguments remote {S} _.
Arguments link {S} _.
Arguments running {S} _.

(** The host after a call that the plugin process handled and that left
    the implementation in state [s]. *)
Definition delivered {S} (w : Host S) (s : S) : Host S :=
  {| remote := s; link := link w; running := running w |}.

(** [Call] over a working connection runs the server stub on the
    implementation.  A method error with a non-empty message travels as
    that message and comes back as [rpc.ServerError]; the reply is then not
    transmitted.  Otherwise the reply is transmitted and the call returns
    [nil] ([over_wire]). *)
Definition call_remote {S} (impl : handler DatabaseType S)
    (serviceMethod : string) (args : wire) (w : Host S)
    : Host S * (option wire * option error) :=
  match link w with
  | Some e => (w, (None, Some e))
  | None =>
      match serve serviceMethod args with
      | None =>
          (w, (None, Some (ServerError
                 ("rpc: can't find method " +:+ serviceMethod))))
      | Some method =>
          let '(s, (reply, err), _) := run impl method (remote w) in
          let w' := delivered w s in
          match over_wire err with
          | None => (w', (Some reply, None))
          | Some e => (w', (None, Some e))
          end
      end
  end.

Definition kill {S} (w : Host S) : Host S :=
  {| remote := remote w; link := Some ErrShutdown; running := false |}.

Definition plugin_transport {S} (impl : handler DatabaseType S)
    : handler transport (Host S) :=
  λ X e,
    match e in transport X return Host S → Host S * X with
    | rpc_Call serviceMethod args => call_remote impl serviceMethod args
    | plugin_Kill => λ w, (kill w, ())
    end.

End dbs_plugin.

(** ** The [dbs] factory *)

Module dbs.

Definition postgreSQLTypeName : string := "postgres".
Definition cassandraTypeName : string := "cassandra".

Record DatabaseConfig : Type := {
  DatabaseType : string;
  ConnectionDetails : gmap string any;
  MaxOpenConnections : Z;
  MaxIdleConnections : Z;
  MaxConnectionLifetime : Z;
}.

Section factory.

(** The typed connection details of the two backends are declared in other
    files of the package, and [mapstructure.Decode] is a library: both are
    taken as given.  A decode yields the details or the decode error. *)
Context {sqlConnectionDetails cassandraConnectionDetails : Type}.
Variable Decode_sql : gmap string any → sqlConnectionDetails + error.
Variable Decode_cassandra : gmap string any → cassandraConnectionDetails + error.

Record sqlConnectionProducer : Type := {
  sql_config : DatabaseConfig;
  sql_connDetails : sqlConnectionDetails;
}.

Record sqlCredentialsProducer : Type := {
  displayNameLen : Z;
  usernameLen : Z;
}.

Record cassandraConnectionProducer : Type := {
  cassandra_config : DatabaseConfig;
  cassandra_connDetails : cassandraConnectionDetails;
}.

Record cassandraCredentialsProducer : Type := {}.

(** The values of the [DatabaseType] interface that [Factory] builds:
    [&PostgreSQL{...}] and [&Cassandra{...}], each a connection producer and
    a credentials producer.  (The name [DatabaseType] is the field of
    [DatabaseConfig] here.) *)
Inductive backend : Type :=
  | PostgreSQL (ConnectionProducer : sqlConnectionProducer)
      (CredentialsProducer : sqlCredentialsProducer)
  | Cassandra (ConnectionProducer : cassandraConnectionProducer)
      (CredentialsProducer : cassandraCredentialsProducer).

(** [func Factory(conf *DatabaseConfig) (DatabaseType, error)]; [None] is
    the [nil] interface value. *)
Definition Factory (conf : DatabaseConfig) : option backend * option error :=
  if String.eqb (DatabaseType conf) postgreSQLTypeName then
    match Decode_sql (ConnectionDetails conf) with
    | inr err => (None, Some err)
    | inl details =>
        let connProducer :=
          {| sql_config := conf; sql_connDetails := details |} in
        let credsProducer :=
          {| displayNameLen := 23; usernameLen := 63 |} in
        (Some (PostgreSQL connProducer credsProducer), None)
    end
  else if String.eqb (DatabaseType conf) cassandraTypeName then
    match Decode_cassandra (ConnectionDetails conf) with
    | inr err => (None, Some err)
    | inl details =>
        let connProducer :=
          {| cassandra_config := conf; cassandra_connDetails := details |} in
        let credsProducer := Build_cassandraCredentialsProducer in
        (Some (Cassandra connProducer credsProducer), None)
    end
  else (None, Some ErrUnsupportedDatabaseType).

End factory.

End dbs.

(** ** The [creds/<name>] path of the [database] backend *)

Module database.

(** [strutil.StrListContains(haystack, needle)] *)
Fixpoint StrListContains (haystack : list string) (needle : string) : bool :=
  match haystack with
  | [] => false
  | item :: rest =>
      if String.eqb item needle then true else StrListContains rest needle
  end.

(** Modelled from the spec: the role struct is declared in another file of
    the package; a role binds the name of a database configuration,
    statement templates and a default lease TTL, the three fields the
    handler reads. *)
Record roleEntry : Type := {
  DBName : string;
  Statements : dbs_plugin.Statements;
  DefaultTTL : Z;
}.

(** Modelled from the spec: the configuration the handler reads is
    declared in another file of the package; it has the fields of
    [dbs.DatabaseConfig] and the allow-list of role names. *)
Record DatabaseConfig : Type := {
  config : dbs.DatabaseConfig;
  AllowedRoles : list string;
}.

(** [logical.Storage] holds the roles and the configurations by name. *)
Record Storage : Type := {
  roles : gmap string roleEntry;
  configs : gmap string DatabaseConfig;
}.

(** Modelled from the spec: the backend's [DatabaseConfig] accessor is defined
    in another file of the package.  Storage answers "Config | NotFound": a
    configuration that is not stored is an error, not a nil result. *)
Definition getDatabaseConfig (s : Storage) (name : string)
    : option DatabaseConfig * option error :=
  match configs s !! name with
  | Some c => (Some c, None)
  | None => (None, Some (NotFoundConfig name))
  end.

(** Modelled from the spec: the backend's [Role] accessor is defined in
    another file of the package.  A role that is not stored is reported as
    nil, which is the case the handler tests for. *)
Definition getRole (s : Storage) (name : string)
    : option roleEntry * option error :=
  (roles s !! name, None).

Record Request : Type := {
  req_Storage : Storage;
  DisplayName : string;
}.

(** [framework.FieldData]; [Get] of a string field that was not supplied
    gives the empty string. *)
Definition FieldData : Type := gmap string string.
Definition Get (data : FieldData) (k : string) : string := default "" (data !! k).

Record Secret : Type := {
  InternalData : gmap string string;
  TTL : Z;
  Renewable : bool;
}.

Record Response : Type := {
  resp_Secret : option Secret;
  Data : gmap string string;
}.

(** [logical.ErrorResponse(text)] *)
Definition ErrorResponse (text : string) : Response :=
  {| resp_Secret := None; Data := {[ "error" := text ]} |}.

(** A secret type registered with the framework. *)
Record framework_Secret : Type := {
  secret_Type : string;
  DefaultDuration : Z;
  has_Renew : bool;   (* s.Renew != nil *)
}.

(** [func (s *framework.Secret) Response(data, internal)]: the payload, and
    a secret whose internal data is [internal] stamped with the secret
    type, with the default duration as TTL, renewable when the secret type
    has a renew callback. *)
Definition Secret_Response (s : framework_Secret)
    (data internal : gmap string string) : Response :=
  {| resp_Secret :=
       Some {| InternalData := <[ "secret_type" := secret_Type s ]> internal;
               TTL := DefaultDuration s;
               Renewable := has_Renew s |};
     Data := data |}.

(** [resp.Secret.TTL = ttl] *)
Definition set_TTL (resp : Response) (ttl : Z) : option Response :=
  match resp_Secret resp with
  | None => None
  | Some sec =>
      Some {| resp_Secret :=
                Some {| InternalData := InternalData sec; TTL := ttl;
                        Renewable := Renewable sec |};
              Data := Data resp |}
  end.

(** A live backend object held by the cache. *)
Definition handle : Type := nat.

(** What the handler calls: methods of the backend [b], the clock, and the
    methods of the database object it obtained.  [db_CreateUser] is the call
    [db.CreateUser(statements, displayName, expiration)] of the handler,
    which returns the username, the password and an error;
    [db_GenerateUsername] and [db_GeneratePassword] are the two credential
    hooks of the same object. *)
Inductive backend : Type → Type :=
  | b_Role (s : Storage) (name : string)
      : backend (option roleEntry * option error)
  | b_DatabaseConfig (s : Storage) (name : string)
      : backend (option DatabaseConfig * option error)
  | b_Lock : backend unit
  | b_Unlock : backend unit
  | b_getOrCreateDBObj (s : Storage) (name : string)
      : backend (option handle * option error)
  | time_Now : backend Z
  | db_CreateUser (db : handle) (statements : dbs_plugin.Statements)
      (displayName : string) (expiration : Z)
      : backend (string * string * option error)
  | db_GenerateUsername (db : handle) (displayName : string)
      : backend (string * option error)
  | db_GeneratePassword (db : handle) : backend (string * option error).

(** What a call of the handler ends in: [return resp, err], or a run-time
    panic. *)
Inductive result : Type :=
  | Return (resp : option Response) (err : option error)
  | Panic (msg : string).

Definition nil_dereference : string :=
  "runtime error: invalid memory address or nil pointer dereference".

(** The calls to the credential hooks of a database object. *)
Definition is_generate_call (ev : event backend) : bool :=
  match ev with
  | Ev e =>
      match e with
      | db_GenerateUsername _ _ | db_GeneratePassword _ => true
      | _ => false
      end
  end.

Section path_creds_create.

(** [b.Secret(SecretCredsType)], the secret type the backend registered. *)
Variable SecretCreds : framework_Secret.

(** The part of the handler that runs between [b.Lock()] and the deferred
    [b.Unlock()]. *)
Definition pathCredsCreateRead_locked (req : Request) (name : string)
    (role : roleEntry) : Prog backend result :=
  (* Get the Database object *)
  '(db, err) ← perform (b_getOrCreateDBObj (req_Storage req) (DBName role));
  match err with
  | Some err =>
      mret (Return None (Some (errorString
        ("cound not retrieve db with name: " +:+ DBName role +:+
         ", got error: " +:+ Error err))))
  | None =>
      now ← perform time_Now;
      let expiration := (now + DefaultTTL role)%Z in
      (* Create the user *)
      match db with
      | None => mret (Panic nil_dereference)
      | Some db =>
          '(username, password, err) ←
            perform (db_CreateUser db (Statements role) (DisplayName req)
                       expiration);
          match err with
          | Some err => mret (Return None (Some err))
          | None =>
              let resp :=
                Secret_Response SecretCreds
                  {[ "username" := username; "password" := password ]}
                  {[ "username" := username; "role" := name ]} in
              match set_TTL resp (DefaultTTL role) with
              | Some resp => mret (Return (Some resp) None)
              | None => mret (Panic nil_dereference)
              end
          end
      end
  end.

Definition pathCredsCreateRead (req : Request) (data : FieldData)
    : Prog backend result :=
  let name := Get data "name" in
  (* Get the role *)
  '(role, err) ← perform (b_Role (req_Storage req) name);
  match err with
  | Some err => mret (Return None (Some err))
  | None =>
      match role with
      | None =>
          mret (Return (Some (ErrorResponse ("unknown role: " +:+ name))) None)
      | Some role =>
          '(dbConfig, err) ←
            perform (b_DatabaseConfig (req_Storage req) (DBName role));
          match err with
          | Some err => mret (Return None (Some err))
          | None =>
              match dbConfig with
              | None => mret (Panic nil_dereference)
              | Some dbConfig =>
                  (* If role name isn't in the database's allowed roles, send
                     back a permission denied. *)
                  if (negb (StrListContains (AllowedRoles dbConfig) "*") &&
                      negb (StrListContains (AllowedRoles dbConfig) name))%bool
                  then mret (Return None (Some ErrPermissionDenied))
                  else
                    _ ← perform b_Lock;
                    r ← pathCredsCreateRead_locked req name role;
                    _ ← perform b_Unlock;
                    mret r
              end
          end
      end
  end.

End path_creds_create.

End database.

(** ** Concrete scenarios used to exercise the definitions *)

Module scenario.

Import dbs_plugin database.

(** An in-process implementation whose state counts the calls made to it:
    it reports type ["postgres"], creates users, and fails to close. *)
Definition sample_impl : handler DatabaseType nat :=
  λ X e,
    match e in DatabaseType X return nat → nat * X with
    | impl_Type => λ n, (S n, "postgres")
    | impl_CreateUser _ _ _ _ => λ n, (S n, None)
    | impl_RenewUser _ _ _ => λ n, (S n, None)
    | impl_RevokeUser _ _ => λ n, (S n, None)
    | impl_Initialize _ => λ n, (S n, None)
    | impl_Close => λ n, (S n, Some (errorString "pool: close failed"))
    | impl_GenerateUsername d => λ n, (S n, ("v-" +:+ d, None))
    | impl_GeneratePassword => λ n, (S n, ("s3cret", None))
    | impl_GenerateExpiration _ => λ n, (S n, ("2024-01-01T00:00:00Z", None))
    end.

Definition host_up : Host nat :=
  {| remote := 0; link := None; running := true |}.

(** The same plugin after its process crashed. *)
Definition host_crashed : Host nat :=
  {| remote := 0; link := Some (errorString "unexpected EOF"); running := true |}.

Definition stmts : dbs_plugin.Statements :=
  {| CreationStatements := "CREATE USER {{name}} WITH PASSWORD {{password}}";
     RevocationStatements := "DROP USER {{name}}";
     RollbackStatements := "";
     RenewStatements := "" |}.

Definition pg_config : database.DatabaseConfig :=
  {| config := {| dbs.DatabaseType := "postgres";
                  dbs.ConnectionDetails := {[ "connection_url" := AString "postgres://db" ]};
                  dbs.MaxOpenConnections := 2;
                  dbs.MaxIdleConnections := 1;
                  dbs.MaxConnectionLifetime := 0 |};
     AllowedRoles := ["readonly"] |}.

Definition storage : Storage :=
  {| roles := {[ "readonly" := {| DBName := "pg"; Statements := stmts; DefaultTTL := 3600 |};
                 "admin" := {| DBName := "pg"; Statements := stmts; DefaultTTL := 60 |};
                 "orphan" := {| DBName := "gone"; Statements := stmts; DefaultTTL := 60 |} ]};
     configs := {[ "pg" := pg_config ]} |}.

Definition request : Request :=
  {| req_Storage := storage; DisplayName := "token" |}.

Definition creds : framework_Secret :=
  {| secret_Type := "creds"; DefaultDuration := 0; has_Renew := true |}.

(** The world behind the handler: a clock, the cache of database objects
    and the users created so far. *)
Record world : Type := {
  clock : Z;
  cache : gmap string handle;
  created : list (string * string);
}.

Definition world0 : world := {| clock := 1000; cache := ∅; created := [] |}.

(** A backend whose storage accessors are [getRole] and
    [getDatabaseConfig], whose cache creates an object on a miss, and whose
    database objects create the user ["alice"] with password ["p@ss"]. *)
Definition stub_backend : handler backend world :=
  λ X e,
    match e in backend X return world → world * X with
    | b_Role s name => λ w, (w, getRole s name)
    | b_DatabaseConfig s name => λ w, (w, getDatabaseConfig s name)
    | b_Lock => λ w, (w, ())
    | b_Unlock => λ w, (w, ())
    | b_getOrCreateDBObj s name => λ w,
        match cache w !! name with
        | Some db => (w, (Some db, None))
        | None =>
            match configs s !! name with
            | None => (w, (None, Some (NotFoundConfig name)))
            | Some _ =>
                let db := size (cache w) in
                ({| clock := clock w; cache := <[ name := db ]> (cache w);
                    created := created w |}, (Some db, None))
            end
        end
    | time_Now => λ w, (w, clock w)
    | db_CreateUser db _ _ _ => λ w,
        ({| clock := clock w; cache := cache w;
            created := ("alice", "p@ss") :: created w |},
         ("alice", "p@ss", None))
    | db_GenerateUsername db displayName => λ w, (w, ("v-" +:+ displayName, None))
    | db_GeneratePassword db => λ w, (w, ("s3cret", None))
    end.

(** The world once the object for ["pg"] is cached, and once it has
    created a user. *)
Definition world_cached : world :=
  {| clock := 1000; cache := {[ "pg" := 0 ]}; created := [] |}.

Definition world_issued : world :=
  {| clock := 1000; cache := {[ "pg" := 0 ]}; created := [("alice", "p@ss")] |}.

Definition readonly_role : roleEntry :=
  {| DBName := "pg"; Statements := stmts; DefaultTTL := 3600 |}.

(** The response to a request for role ["readonly"]. *)
Definition issued_response : Response :=
  {| resp_Secret :=
       Some {| InternalData :=
                 <[ "secret_type" := "creds" ]>
                   {[ "username" := "alice"; "role" := "readonly" ]};
               TTL := 3600;
               Renewable := true |};
     Data := {[ "username" := "alice"; "password" := "p@ss" ]} |}.

(** Decoders for the factory: connection details are the connection URL. *)
Definition decode_url (details : gmap string any) : string + error :=
  match details !! "connection_url" with
  | Some (AString url) => inl url
  | _ => inr (errorString "connection_url: expected a string")
  end.

Definition decode_hosts (details : gmap string any) : string + error :=
  match details !! "hosts" with
  | Some (AString hosts) => inl hosts
  | _ => inr (errorString "hosts: expected a string")
  end.

Definition conf_of (type : string) (details : gmap string any)
    : dbs.DatabaseConfig :=
  {| dbs.DatabaseType := type; dbs.ConnectionDetails := details;
     dbs.MaxOpenConnections := 2; dbs.MaxIdleConnections := 1;
     dbs.MaxConnectionLifetime := 0 |}.

(** Substitution data. *)
Definition user_data : gmap string string :=
  {[ "name" := "alice"; "password" := "p@ss" ]}.

Definition create_user_template : list chunk :=
  [Lit "CREATE USER "; Tok "name"; Lit " WITH PASSWORD "; Tok "password"].

(** A template with a placeholder the data has no value for, and one
    that occurs twice. *)
Definition grant_template : list chunk :=
  [Lit "GRANT "; Tok "privs"; Lit " TO "; Tok "name"; Lit " -- "; Tok "name"].

(** A value that is itself a placeholder of another key. *)
Definition nested_data : gmap string string :=
  {[ "a" := "{{b}}"; "b" := "x" ]}.

(** Brace-free keys and values, for a template with stray braces. *)
Definition chained_data : gmap string string :=
  {[ "a" := "b"; "b" := "x" ]}.

(** A key that spans two placeholders of another key. *)
Definition overlapping_data : gmap string string :=
  {[ "a" := "1"; "a}}{{a" := "2" ]}.

(** A key that contains braces. *)
Definition spanning_data : gmap string string :=
  {[ "c}} {{d" := "boom" ]}.

End scenario.

(** ** The calls of the credentials handler, as a protocol *)

Module creds_protocol.

Import database.

Definition is_create_user (ev : event backend) : bool :=
  match ev with
  | Ev e =>
      match e with
      | db_CreateUser _ _ _ _ => true
      | _ => false
      end
  end.

Definition is_lock (ev : event backend) : bool :=
  match ev with
  | Ev e =>
      match e with
      | b_Lock => true
      | _ => false
      end
  end.

(** A sequence of calls respects the backend's mutex when [Lock] is only
    called with the lock free, [Unlock] only with the lock held, the cache
    and the database objects are only called with the lock held, and the
    lock is free at the end.  [held] tells whether the lock is held before
    the first call. *)
Fixpoint lock_discipline (held : bool) (calls : list (event backend)) : bool :=
  match calls with
  | [] => negb held
  | Ev e :: rest =>
      match e with
      | b_Lock => negb held && lock_discipline true rest
      | b_Unlock => held && lock_discipline false rest
      | b_getOrCreateDBObj _ _
      | db_CreateUser _ _ _ _
      | db_GenerateUsername _ _
      | db_GeneratePassword _ => held && lock_discipline held rest
      | b_Role _ _ | b_DatabaseConfig _ _ | time_Now => lock_discipline held rest
      end
  end.

(** The handler returned, and what it handed back is a response or an
    error, not both and not neither; a response that carries a secret comes
    after a [CreateUser] call. *)
Definition result_shape (r : result) (calls : list (event backend)) : Prop :=
  match r with
  | Return (Some resp) None =>
      resp_Secret resp = None ∨ existsb is_create_user calls = true
  | Return None (Some _) => True
  | Return (Some _) (Some _) => False
  | Return None None => False
  | Panic _ => False
  end.

End creds_protocol.

(** ** Starting a plugin: [newPluginClient] *)

Module plugin_startup.

Import dbs_plugin.

(** [plugin.HandshakeConfig] *)
Record HandshakeConfig : Type := {
  ProtocolVersion : Z;
  MagicCookieKey : string;
  MagicCookieValue : string;
}.

Definition handshakeConfig : HandshakeConfig :=
  {| ProtocolVersion := 1;
     MagicCookieKey := "VAULT_DATABASE_PLUGIN";
     MagicCookieValue := "926a0820-aea2-be28-51d6-83cdf00e8edb" |}.

(** [type DatabasePlugin struct { impl DatabaseType }]; the implementation
    is named by a reference, [None] being the nil interface. *)
Record DatabasePlugin : Type := { impl : option nat }.

(** [&databasePluginRPCClient{client: c}], the client stub over the
    connection [c]. *)
Record databasePluginRPCClient : Type := { rpc_client : nat }.

(** [type DatabasePluginClient struct { client *plugin.Client; ...;
    *databasePluginRPCClient }] *)
Record DatabasePluginClient : Type := {
  client : nat;
  embedded : databasePluginRPCClient;
}.

(** The [interface{}] that [Dispense] returns. *)
Inductive dispensed : Type :=
  | raw_nil
  | raw_databasePluginRPCClient (c : databasePluginRPCClient)
  | raw_other.

(** The calls into go-plugin and pluginutil: [pluginRunner.Run(sys,
    pluginMap, handshakeConfig, args)], [client.Client()],
    [rpcClient.Dispense(name)] and [client.Kill()].  Processes and
    connections are named by references. *)
Inductive startup : Type → Type :=
  | pluginRunner_Run (runner sys : nat) (pluginMap : gmap string DatabasePlugin)
      (handshake : HandshakeConfig) (args : list string)
      : startup (option nat * option error)
  | client_Client (client : nat) : startup (option nat * option error)
  | rpcClient_Dispense (rpcClient : nat) (name : string)
      : startup (dispensed * option error)
  | client_Kill (client : nat) : startup unit.

Definition is_kill (ev : event startup) : bool :=
  match ev with
  | Ev e =>
      match e with
      | client_Kill _ => true
      | _ => false
      end
  end.

(** What [newPluginClient] ends in: [return handle, err] or a panic (a
    method call on a nil pointer, a failed type assertion). *)
Inductive started : Type :=
  | Started (handle : option DatabasePluginClient) (err : option error)
  | StartPanic (msg : string).

Definition newPluginClient (sys pluginRunner : nat) : Prog startup started :=
  (* pluginMap is the map of plugins we can dispense. *)
  let pluginMap : gmap string DatabasePlugin :=
    {[ "database" := {| impl := None |} ]} in
  '(client, err) ← perform (pluginRunner_Run pluginRunner sys pluginMap
                               handshakeConfig []);
  match err with
  | Some err => mret (Started None (Some err))
  | None =>
      match client with
      | None => mret (StartPanic database.nil_dereference)
      | Some client =>
          (* Connect via RPC *)
          '(rpcClient, err) ← perform (client_Client client);
          match err with
          | Some err => mret (Started None (Some err))
          | None =>
              match rpcClient with
              | None => mret (StartPanic database.nil_dereference)
              | Some rpcClient =>
                  (* Request the plugin *)
                  '(raw, err) ← perform (rpcClient_Dispense rpcClient "database");
                  match err with
                  | Some err => mret (Started None (Some err))
                  | None =>
                      match raw with
                      | raw_databasePluginRPCClient databaseRPC =>
                          mret (Started
                                  (Some {| client := client;
                                           embedded := databaseRPC |})
                                  None)
                      | _ =>
                          mret (StartPanic
                                  "interface conversion: interface {} is not *dbs.databasePluginRPCClient")
                      end
                  end
              end
          end
      end
  end.

End plugin_startup.

(** ** More scenarios *)

Module scenario_failures.

Import database scenario.

(** The stub backend with failures injected into the role accessor, the
    cache and the database object. *)
Definition flaky_backend (role_err cache_err create_err : option error)
    : handler backend world :=
  λ X e,
    match e in backend X return world → world * X with
    | b_Role s name => λ w,
        match role_err with
        | Some err => (w, (None, Some err))
        | None => stub_backend _ (b_Role s name) w
        end
    | b_DatabaseConfig s name => stub_backend _ (b_DatabaseConfig s name)
    | b_Lock => stub_backend _ b_Lock
    | b_Unlock => stub_backend _ b_Unlock
    | b_getOrCreateDBObj s name => λ w,
        match cache_err with
        | Some err => (w, (None, Some err))
        | None => stub_backend _ (b_getOrCreateDBObj s name) w
        end
    | time_Now => stub_backend _ time_Now
    | db_CreateUser db st d x => λ w,
        match create_err with
        | Some err => (w, ("", "", Some err))
        | None => stub_backend _ (db_CreateUser db st d x) w
        end
    | db_GenerateUsername db d => stub_backend _ (db_GenerateUsername db d)
    | db_GeneratePassword db => stub_backend _ (db_GeneratePassword db)
    end.

(** A plugin runtime in which the step number [fail_at] fails (1: [Run],
    2: [Client], 3: [Dispense]; 0: none).  The world counts the processes
    that were killed. *)
Definition plugin_runtime (fail_at : nat)
    : handler plugin_startup.startup nat :=
  λ X e,
    match e in plugin_startup.startup X return nat → nat * X with
    | plugin_startup.pluginRunner_Run _ _ _ _ _ => λ w,
        if Nat.eqb fail_at 1
        then (w, (None, Some (errorString "fork/exec: no such file")))
        else (w, (Some 7, None))
    | plugin_startup.client_Client c => λ w,
        if Nat.eqb fail_at 2
        then (w, (None, Some (errorString "handshake: wrong magic cookie")))
        else (w, (Some 8, None))
    | plugin_startup.rpcClient_Dispense rc name => λ w,
        if Nat.eqb fail_at 3
        then (w, (plugin_startup.raw_nil, Some (errorString "unknown plugin type")))
        else (w, (plugin_startup.raw_databasePluginRPCClient
                    {| plugin_startup.rpc_client := rc |}, None))
    | plugin_startup.client_Kill _ => λ w, (S w, ())
    end.

(** An implementation whose [CreateUser] fails with [errors.New("")] and
    whose [RevokeUser] fails with a message. *)
Definition terse_impl : handler dbs_plugin.DatabaseType nat :=
  λ X e,
    match e in dbs_plugin.DatabaseType X return nat → nat * X with
    | dbs_plugin.impl_CreateUser _ _ _ _ => λ n, (S n, Some (errorString ""))
    | dbs_plugin.impl_RevokeUser _ _ => λ n, (S n, Some (errorString "no such user"))
    | e' => sample_impl _ e'
    end.

(** Two maps with brace-free keys and values, to substitute in stages. *)
Definition name_data : gmap string string := {[ "name" := "alice" ]}.
Definition password_data : gmap string string := {[ "password" := "p@ss" ]}.

End scenario_failures.

(* ===================================================================== *)
(** * Part II. Properties                                                  *)
(* ===================================================================== *)

Example replace_all_ex :
  strings.Replace "a-b-c" "-" "+" (-1) = "a+b+c".
Proof. reflexivity. Qed.
Example replace_n_ex :
  strings.Replace "a-b-c" "-" "+" 1 = "a+b-c".
Proof. reflexivity. Qed.
Example replace_empty_ex :
  strings.Replace "abc" "" "-" (-1) = "-a-b-c-".
Proof. reflexivity. Qed.
Example replace_empty_n_ex :
  strings.Replace "abc" "" "-" 2 = "-a-bc".
Proof. reflexivity. Qed.
Example replace_overlap_ex :
  strings.Replace "aaaa" "aa" "b" (-1) = "bb" /\ strings.Replace "aaa" "aa" "b" (-1) = "ba".
Proof. split; reflexivity. Qed.
Example qh_ex :
  queryHelper_range "CREATE USER {{name}} WITH PASSWORD {{password}}"
    [("name", "alice"); ("password", "p@ss")] = "CREATE USER alice WITH PASSWORD p@ss".
Proof. reflexivity. Qed.
Example qh_ex2 :
  queryHelper_range "{{a}}" [("a", "{{b}}"); ("b", "x")] = "x" /\
  queryHelper_range "{{a}}" [("b", "x"); ("a", "{{b}}")] = "{{b}}".
Proof. split; reflexivity. Qed.

(** ** Strings *)

Section string_facts.

Lemma append_nil_l (s : string) : "" +:+ s = s.
Proof. reflexivity. Qed.

Lemma append_cons c (s t : string) : String c s +:+ t = String c (s +:+ t).
Proof. reflexivity. Qed.

Lemma append_nil_r (s : string) : s +:+ "" = s.
Proof. induction s as [|c s IH]; [done | by rewrite append_cons, IH]. Qed.

Lemma append_assoc (s t u : string) : (s +:+ t) +:+ u = s +:+ (t +:+ u).
Proof. induction s as [|c s IH]; [done | by rewrite !append_cons, IH]. Qed.

Lemma prefix_nil (s : string) : String.prefix "" s = true.
Proof. by destruct s. Qed.

Lemma prefix_cons c x d s :
  String.prefix (String c x) (String d s) = true ↔ c = d ∧ String.prefix x s = true.
Proof.
  simpl. destruct (ascii_dec c d) as [->|Hne].
  - split; [done | by intros [_ ?]].
  - split; [done | by intros [? _]].
Qed.

Lemma prefix_cons_ne c x d s : c ≠ d → String.prefix (String c x) (String d s) = false.
Proof. intros Hne. simpl. by destruct (ascii_dec c d). Qed.

Lemma prefix_app (x r : string) : String.prefix x (x +:+ r) = true.
Proof.
  induction x as [|c x IH]; [apply prefix_nil|].
  rewrite append_cons. by apply prefix_cons.
Qed.

Lemma prefix_app_r (x p r : string) :
  String.prefix x p = true → String.prefix x (p +:+ r) = true.
Proof.
  revert p. induction x as [|c x IH]; intros p; [intros _; apply prefix_nil|].
  destruct p as [|d p]; [done|]. rewrite append_cons, !prefix_cons.
  intros [-> Hx]. auto.
Qed.

(** A pattern that starts at the head of [p +:+ r] either lies inside [p]
    or runs over the seam with a non-empty remainder in [r]. *)
Lemma prefix_app_split (x p r : string) :
  String.prefix x (p +:+ r) = true →
  String.prefix x p = true ∨
  ∃ x2, x = p +:+ x2 ∧ x2 ≠ "" ∧ String.prefix x2 r = true.
Proof.
  revert p. induction x as [|c x IH]; intros p Hp; [left; apply prefix_nil|].
  destruct p as [|d p].
  - right. by exists (String c x).
  - rewrite append_cons in Hp. apply prefix_cons in Hp as [-> Hp].
    destruct (IH _ Hp) as [H|(x2 & -> & Hx2 & H)].
    + left. by apply prefix_cons.
    + right. by exists x2.
Qed.

Lemma prefix_length (x s : string) :
  String.prefix x s = true → String.length x ≤ String.length s.
Proof.
  revert s. induction x as [|c x IH]; intros s; [simpl; lia|].
  destruct s as [|d s]; [done|]. intros [_ H]%prefix_cons. simpl.
  apply IH in H. lia.
Qed.

End string_facts.

(** ** One pass of [strings.Replace] over a placeholder *)

Section replace_token.

Variables (a new : string).

Local Abbreviation scan := (strings.replace_scan (token a) new None).

Lemma token_unfold (k : string) : token k = String "{" (String "{" (k +:+ "}}")).
Proof. reflexivity. Qed.

Lemma token_app (k q : string) :
  token k +:+ q = String "{" (String "{" (k +:+ "}}" +:+ q)).
Proof. by rewrite token_unfold, !append_cons, append_assoc. Qed.

Lemma token_length (k : string) :
  String.length (token k) = S (S (String.length (k +:+ "}}"))).
Proof. reflexivity. Qed.

Lemma scan_cons_skip skip c s : scan (S skip) (String c s) = scan skip s.
Proof. reflexivity. Qed.

Lemma scan_cons c s :
  scan 0 (String c s) =
    if String.prefix (token a) (String c s)
    then new +:+ scan (String.length (token a) - 1) s
    else String c (scan 0 s).
Proof. reflexivity. Qed.

(** Jumping over an occurrence. *)
Lemma scan_skip (x q : string) : scan (String.length x) (x +:+ q) = scan 0 q.
Proof.
  induction x as [|c x IH]; [done|].
  by rewrite append_cons; simpl String.length; rewrite scan_cons_skip.
Qed.

Lemma has_char_app x (s t : string) :
  has_char x (s +:+ t) = (has_char x s || has_char x t)%bool.
Proof.
  induction s as [|c s IH]; [done|].
  rewrite append_cons. simpl. by rewrite IH, orb_assoc.
Qed.

Lemma has_char_head x c (s : string) :
  has_char x (String c s) = false → c ≠ x.
Proof.
  simpl. intros [Hc _]%orb_false_elim. by apply Ascii.eqb_neq in Hc.
Qed.

Lemma has_char_tail x c (s : string) :
  has_char x (String c s) = false → has_char x s = false.
Proof. simpl. by intros [_ ?]%orb_false_elim. Qed.

(** Text without ['{'] is copied: no placeholder starts in it. *)
Lemma scan_no_lbrace (w q : string) :
  has_char "{" w = false → scan 0 (w +:+ q) = w +:+ scan 0 q.
Proof.
  induction w as [|c w IH]; intros Hw; [done|].
  rewrite append_cons, scan_cons, token_unfold.
  rewrite prefix_cons_ne by (intros <-; by apply has_char_head in Hw).
  rewrite <-token_unfold, IH by (by apply has_char_tail in Hw).
  by rewrite append_cons.
Qed.

(** Two placeholders that start at the same byte are the same placeholder. *)
Lemma key_prefix_inj (k q : string) :
  has_char "}" a = false → has_char "}" k = false →
  String.prefix (a +:+ "}}") (k +:+ "}}" +:+ q) = true → a = k.
Proof.
  clear new. revert k. induction a as [|c a' IH]; intros k Ha Hk Hp.
  - destruct k as [|d k]; [done|]. exfalso.
    rewrite append_nil_l, append_cons in Hp. apply prefix_cons in Hp as [<- _].
    by apply has_char_head in Hk.
  - destruct k as [|d k].
    + exfalso. rewrite append_nil_l, !append_cons in Hp.
      apply prefix_cons in Hp as [-> _]. by apply has_char_head in Ha.
    + rewrite !append_cons in Hp. apply prefix_cons in Hp as [-> Hp].
      f_equal. apply IH; [by apply has_char_tail in Ha|by apply has_char_tail in Hk|done].
Qed.

Lemma token_prefix_inj (k q : string) :
  has_char "}" a = false → has_char "}" k = false →
  String.prefix (token a) (token k +:+ q) = true → a = k.
Proof.
  intros Ha Hk. rewrite token_app, token_unfold.
  intros [_ [_ Hp]%prefix_cons]%prefix_cons. by eapply key_prefix_inj.
Qed.

(** An occurrence of [{{a}}] that starts before a placeholder ends before
    it: the ['{'] that opens the next placeholder cannot be matched by the
    key or the closing braces of this one. *)
Lemma token_prefix_seam (p k q : string) :
  has_char "{" a = false → p ≠ "" →
  String.prefix (token a) (p +:+ token k +:+ q) = true →
  String.prefix (token a) p = true.
Proof.
  intros Ha Hp Hpre.
  destruct (prefix_app_split _ _ _ Hpre) as [|(x2 & Hx & Hx2 & Hpre2)]; [done|].
  exfalso. rewrite token_app in Hpre2.
  assert (Hbody : has_char "{" (a +:+ "}}") = false)
    by (by rewrite has_char_app, Ha).
  destruct p as [|c p]; [done|].
  rewrite token_unfold, append_cons in Hx. injection Hx as _ Hx.
  destruct p as [|c' p].
  - rewrite append_nil_l in Hx. subst x2.
    apply prefix_cons in Hpre2 as [_ Hpre2].
    destruct (a +:+ "}}") as [|e body] eqn:Hb.
    + by destruct a.
    + apply prefix_cons in Hpre2 as [-> _]. by apply has_char_head in Hbody.
  - rewrite append_cons in Hx. injection Hx as _ Hx.
    rewrite Hx, has_char_app in Hbody. apply orb_false_elim in Hbody as [_ Hbody].
    destruct x2 as [|e x2]; [done|].
    apply prefix_cons in Hpre2 as [-> _]. by apply has_char_head in Hbody.
Qed.

(** The scan of the text before a placeholder does not depend on what
    follows it. *)
Lemma scan_app_token (p k q : string) (skip : nat) :
  has_char "{" a = false → skip ≤ String.length p →
  scan skip (p +:+ token k +:+ q) = scan skip p +:+ scan 0 (token k +:+ q).
Proof.
  intros Ha. revert skip. induction p as [|c p IH]; intros skip Hskip.
  - simpl in Hskip. by replace skip with 0%nat by lia.
  - simpl in Hskip. rewrite append_cons. destruct skip as [|skip].
    + rewrite !scan_cons.
      destruct (String.prefix (token a) (String c (p +:+ token k +:+ q))) eqn:Hpre.
      * rewrite <-append_cons in Hpre.
        apply token_prefix_seam in Hpre; [|done..]. rewrite Hpre.
        apply prefix_length in Hpre.
        change (String.length (String c p)) with (S (String.length p)) in Hpre.
        rewrite IH, append_assoc by lia. done.
      * destruct (String.prefix (token a) (String c p)) eqn:Hpre'.
        { apply (prefix_app_r _ _ (token k +:+ q)) in Hpre'.
          rewrite append_cons in Hpre'. congruence. }
        rewrite IH, append_cons by lia. done.
    + rewrite !scan_cons_skip. apply IH. lia.
Qed.

(** A pass over a placeholder: replaced when it is the one searched for,
    copied otherwise. *)
Lemma scan_token (k q : string) :
  brace_free a = true → brace_free k = true →
  scan 0 (token k +:+ q) =
    (if decide (a = k) then new else token k) +:+ scan 0 q.
Proof.
  unfold brace_free. rewrite !andb_true_iff, !negb_true_iff.
  intros [Hal Har] [Hkl Hkr]. case_decide as Hak.
  - subst k. rewrite token_app at 1. rewrite scan_cons, <-token_app, prefix_app.
    f_equal. rewrite token_length. simpl Nat.sub.
    rewrite scan_cons_skip, <-append_assoc. apply scan_skip.
  - rewrite token_app at 1. rewrite scan_cons, <-token_app.
    destruct (String.prefix (token a) (token k +:+ q)) eqn:Hpre.
    { by apply token_prefix_inj in Hpre. }
    clear Hpre. rewrite token_app, <-append_assoc.
    assert (Hbody : has_char "{" (k +:+ "}}") = false)
      by (by rewrite has_char_app, Hkl).
    f_equal. rewrite scan_cons.
    destruct (String.prefix (token a) _) eqn:Hpre2.
    { exfalso. rewrite token_unfold in Hpre2.
      apply prefix_cons in Hpre2 as [_ Hpre2].
      destruct (k +:+ "}}") as [|e body] eqn:Hb; [by destruct k|].
      rewrite append_cons in Hpre2.
      apply prefix_cons in Hpre2 as [<- _]. by apply has_char_head in Hbody. }
    by rewrite scan_no_lbrace, append_assoc.
Qed.

Lemma scan_around_token (p k q : string) :
  brace_free a = true → brace_free k = true →
  scan 0 (p +:+ token k +:+ q) =
    scan 0 p +:+ (if decide (a = k) then new else token k) +:+ scan 0 q.
Proof.
  intros Ha Hk. rewrite scan_app_token, scan_token; [done..| |lia].
  unfold brace_free in Ha. apply andb_true_iff in Ha as [Ha _].
  by apply negb_true_iff in Ha.
Qed.

End replace_token.

(** ** [queryHelper] on templates *)

Section query_helper.

(** With [n = -1] and a placeholder as pattern, [strings.Replace] is the
    unlimited scan, unless the value is the placeholder itself. *)
Lemma step_scan (tpl a v : string) :
  queryHelper_step tpl (a, v) =
    if String.eqb (token a) v then tpl
    else strings.replace_scan (token a) v None 0 tpl.
Proof.
  unfold queryHelper_step, strings.Replace. simpl fst. simpl snd.
  rewrite orb_false_r. by rewrite token_unfold.
Qed.

Lemma step_nil (kv : string * string) : queryHelper_step "" kv = "".
Proof. destruct kv as [a v]. rewrite step_scan. by destruct (String.eqb _ _). Qed.

Lemma step_around_token (p k q a v : string) :
  brace_free a = true → brace_free k = true →
  queryHelper_step (p +:+ token k +:+ q) (a, v) =
    queryHelper_step p (a, v) +:+ (if decide (a = k) then v else token k)
      +:+ queryHelper_step q (a, v).
Proof.
  intros Ha Hk. rewrite !step_scan.
  destruct (String.eqb_spec (token a) v) as [<-|Hne].
  - by case_decide; subst.
  - by apply scan_around_token.
Qed.

Lemma step_text (w q : string) (kv : string * string) :
  has_char "{" w = false →
  queryHelper_step (w +:+ q) kv = w +:+ queryHelper_step q kv.
Proof.
  intros Hw. destruct kv as [a v]. rewrite !step_scan.
  destruct (String.eqb _ _); [done | by apply scan_no_lbrace].
Qed.

Lemma brace_free_lbrace (s : string) : brace_free s = true → has_char "{" s = false.
Proof.
  unfold brace_free. intros [H _]%andb_true_iff. by apply negb_true_iff in H.
Qed.

(** One pass over a well-formed template substitutes one key. *)
Lemma step_render (cs : list chunk) (a v : string) :
  brace_free a = true → Forall (λ c, chunk_wf c = true) cs →
  queryHelper_step (render cs) (a, v) = render (subst {[a := v]} cs).
Proof.
  intros Ha. induction 1 as [|c cs Hc Hcs IH]; [apply step_nil|].
  simpl. destruct c as [w|k]; simpl in *.
  - rewrite step_text, IH; [done | by apply brace_free_lbrace].
  - rewrite <-(append_nil_l (token k +:+ _)), step_around_token by done.
    rewrite step_nil, append_nil_l, IH. f_equal.
    destruct (decide (a = k)) as [->|Hne].
    + by rewrite lookup_singleton_eq.
    + by rewrite lookup_singleton_ne.
Qed.

Lemma subst_wf (data : gmap string string) (cs : list chunk) :
  map_Forall (λ _ v, brace_free v = true) data →
  Forall (λ c, chunk_wf c = true) cs →
  Forall (λ c, chunk_wf c = true) (subst data cs).
Proof.
  intros Hdata Hcs. apply Forall_fmap. eapply Forall_impl; [exact Hcs|].
  intros [w|k] Hc; simpl; [done|].
  destruct (data !! k) as [v|] eqn:Hk; [|done]. by apply (Hdata k v).
Qed.

Lemma subst_insert (a v : string) (data : gmap string string) (cs : list chunk) :
  subst data (subst {[a := v]} cs) = subst (<[a := v]> data) cs.
Proof.
  unfold subst. rewrite <-list_fmap_compose. apply list_fmap_ext.
  intros _ [w|k] _; simpl; [done|].
  destruct (decide (a = k)) as [->|Hne].
  - by rewrite lookup_singleton_eq, lookup_insert_eq.
  - rewrite lookup_singleton_ne, lookup_insert_ne by done. done.
Qed.

Lemma subst_empty (cs : list chunk) : subst ∅ cs = cs.
Proof.
  unfold subst. rewrite <-(list_fmap_id cs) at 2. apply list_fmap_ext.
  intros _ [w|k] _; simpl; [done|]. by rewrite lookup_empty.
Qed.

(** The passes in sequence, on a well-formed template with brace-free keys
    and values, amount to one simultaneous substitution. *)
Lemma range_render (entries : list (string * string)) (cs : list chunk) :
  Forall (λ kv, brace_free kv.1 = true ∧ brace_free kv.2 = true) entries →
  Forall (λ c, chunk_wf c = true) cs →
  queryHelper_range (render cs) entries = render (subst (list_to_map entries) cs).
Proof.
  intros Hl. revert cs. induction Hl as [|[a v] l [Ha Hv] Hl IH]; intros cs Hcs.
  - by rewrite list_to_map_nil, subst_empty.
  - simpl in Ha, Hv. unfold queryHelper_range. simpl fold_left.
    fold (queryHelper_range (queryHelper_step (render cs) (a, v)) l).
    rewrite step_render by done. rewrite IH; [by rewrite subst_insert|].
    apply subst_wf; [|done]. by apply map_Forall_singleton.
Qed.

Lemma range_order_list_to_map (data : gmap string string) entries :
  range_order data entries → list_to_map entries = data.
Proof.
  unfold range_order. intros Hperm.
  rewrite <-(list_to_map_to_list data). apply list_to_map_proper; [|done].
  rewrite Hperm. apply NoDup_fst_map_to_list.
Qed.

Lemma range_order_Forall (P : string → string → Prop) data entries :
  range_order data entries → map_Forall P data → Forall (uncurry P) entries.
Proof.
  unfold range_order. intros Hperm HP. rewrite Hperm.
  by apply map_Forall_to_list.
Qed.

Lemma queryHelper_render (data : gmap string string) entries (cs : list chunk) :
  range_order data entries →
  map_Forall (λ k v, brace_free k = true ∧ brace_free v = true) data →
  Forall (λ c, chunk_wf c = true) cs →
  queryHelper_range (render cs) entries = render (subst data cs).
Proof.
  intros Hord Hdata Hcs.
  rewrite range_render; [by rewrite (range_order_list_to_map data)| |done].
  eapply Forall_impl; [by eapply range_order_Forall|]. by intros [k v].
Qed.

(** A placeholder whose key is searched for by no pass splits the template
    into two parts that are rewritten independently. *)
Lemma range_absent_token (entries : list (string * string)) (p k q : string) :
  brace_free k = true →
  Forall (λ kv, brace_free kv.1 = true ∧ kv.1 ≠ k) entries →
  queryHelper_range (p +:+ token k +:+ q) entries =
    queryHelper_range p entries +:+ token k +:+ queryHelper_range q entries.
Proof.
  intros Hk Hl. revert p q. induction Hl as [|[a v] l [Ha Hne] Hl IH]; intros p q; [done|].
  simpl in Ha, Hne. unfold queryHelper_range. simpl fold_left.
  rewrite step_around_token by done. rewrite decide_False by done. apply IH.
Qed.

End query_helper.

(** ** Running programs *)

Section run_facts.

Context {E : Type → Type} {W : Type} (h : handler E W).

Lemma run_perform_bind {X A} (e : E X) (k : X → Prog E A) (w : W) :
  run h (perform e ≫= k) w =
    let '(w1, x) := h _ e w in
    let '(w2, a, calls) := run h (k x) w1 in
    (w2, a, Ev e :: calls).
Proof. reflexivity. Qed.

Lemma run_bind {A B} (p : Prog E A) (k : A → Prog E B) (w : W) :
  run h (p ≫= k) w =
    let '(w1, a, calls1) := run h p w in
    let '(w2, b, calls2) := run h (k a) w1 in
    (w2, b, calls1 ++ calls2).
Proof.
  revert w. induction p as [a|X e k' IH]; intros w.
  - simpl. by destruct (run h (k a) w) as [[w2 b] calls2].
  - change (run h (Do e k' ≫= k) w) with
      (let '(w1, x) := h _ e w in
       let '(w2, a, calls) := run h (k' x ≫= k) w1 in
       (w2, a, Ev e :: calls)).
    simpl. destruct (h X e w) as [w1 x]. rewrite IH.
    destruct (run h (k' x) w1) as [[w1' a] calls1].
    by destruct (run h (k a) w1') as [[w2 b] calls2].
Qed.

End run_facts.

(** ** The plugin stubs *)

Section plugin_stubs.

Import dbs_plugin.

(** The server stubs of the operations that return only an error hand the
    implementation the fields of the request and return its error. *)
Lemma server_CreateUser_forwards {S} (impl : handler DatabaseType S) args s s' err :
  impl _ (impl_CreateUser (cu_Statements args) (cu_Username args)
            (cu_Password args) (cu_Expiration args)) s = (s', err) →
  run impl (databasePluginRPCServer.CreateUser args) s =
    (s', (WEmpty, err),
     [Ev (impl_CreateUser (cu_Statements args) (cu_Username args)
            (cu_Password args) (cu_Expiration args))]).
Proof.
  intros H. unfold databasePluginRPCServer.CreateUser.
  rewrite run_perform_bind, H. reflexivity.
Qed.

Lemma server_RenewUser_forwards {S} (impl : handler DatabaseType S) args s s' err :
  impl _ (impl_RenewUser (rn_Statements args) (rn_Username args)
            (rn_Expiration args)) s = (s', err) →
  run impl (databasePluginRPCServer.RenewUser args) s =
    (s', (WEmpty, err),
     [Ev (impl_RenewUser (rn_Statements args) (rn_Username args)
            (rn_Expiration args))]).
Proof.
  intros H. unfold databasePluginRPCServer.RenewUser.
  rewrite run_perform_bind, H. reflexivity.
Qed.

Lemma server_RevokeUser_forwards {S} (impl : handler DatabaseType S) args s s' err :
  impl _ (impl_RevokeUser (rv_Statements args) (rv_Username args)) s = (s', err) →
  run impl (databasePluginRPCServer.RevokeUser args) s =
    (s', (WEmpty, err),
     [Ev (impl_RevokeUser (rv_Statements args) (rv_Username args))]).
Proof.
  intros H. unfold databasePluginRPCServer.RevokeUser.
  rewrite run_perform_bind, H. reflexivity.
Qed.

Lemma server_Initialize_forwards {S} (impl : handler DatabaseType S) conf s s' err :
  impl _ (impl_Initialize conf) s = (s', err) →
  run impl (databasePluginRPCServer.Initialize conf) s =
    (s', (WEmpty, err), [Ev (impl_Initialize conf)]).
Proof.
  intros H. unfold databasePluginRPCServer.Initialize.
  rewrite run_perform_bind, H. reflexivity.
Qed.

(** The server stub of [Close] calls the implementation and answers [nil]
    whatever the implementation returned. *)
Lemma server_Close_nil {S} (impl : handler DatabaseType S) s s' err :
  impl _ impl_Close s = (s', err) →
  run impl databasePluginRPCServer.Close s = (s', (WEmpty, None), [Ev impl_Close]).
Proof.
  intros H. unfold databasePluginRPCServer.Close.
  rewrite run_perform_bind, H. reflexivity.
Qed.

End plugin_stubs.

Section plugin_claims.

Import dbs_plugin.

(** C5.  [DatabasePluginClient.Close] sends the remote close request, then
    tells the transport to kill the plugin process, and returns the error
    of the remote call: whatever the remote call answered ([reply], [err])
    and whatever the transport is, the calls made are exactly
    [Call "Plugin.Close"] followed by [Kill], and the value returned is
    [err].  [Kill] returns nothing that could be mixed into it. *)
Theorem plugin_client_Close_kills {W} (h : handler transport W)
    (w w1 w2 : W) (reply : option wire) (err : option error) :
  h _ (rpc_Call "Plugin.Close" WEmpty) w = (w1, (reply, err)) →
  h _ plugin_Kill w1 = (w2, ()) →
  run h DatabasePluginClient.Close w =
    (w2, err, [Ev (rpc_Call "Plugin.Close" WEmpty); Ev plugin_Kill]).
Proof.
  intros Hcall Hkill. unfold DatabasePluginClient.Close.
  rewrite run_bind. unfold databasePluginRPCClient.Close.
  rewrite run_perform_bind, Hcall. simpl.
  rewrite Hkill. reflexivity.
Qed.

(** The remote call fails on a crashed plugin; the process is killed all
    the same and the caller gets the error of the call. *)
Lemma plugin_client_Close_kills_witness :
  plugin_transport scenario.sample_impl _ (rpc_Call "Plugin.Close" WEmpty)
    scenario.host_crashed =
    (scenario.host_crashed, (None, Some (errorString "unexpected EOF"))) ∧
  plugin_transport scenario.sample_impl _ plugin_Kill scenario.host_crashed =
    (kill scenario.host_crashed, ()) ∧
  run (plugin_transport scenario.sample_impl) DatabasePluginClient.Close
    scenario.host_crashed =
    (kill scenario.host_crashed, Some (errorString "unexpected EOF"),
     [Ev (rpc_Call "Plugin.Close" WEmpty); Ev plugin_Kill]) ∧
  running (kill scenario.host_crashed) = false.
Proof.
  split; [reflexivity|]. split; [reflexivity|]. split; [|reflexivity].
  apply (plugin_client_Close_kills _ _ scenario.host_crashed _ None);
    reflexivity.
Defined.

(** C6, at an implementation whose [Close] fails: the server stub calls the
    implementation's [Close], which returns the error
    ["pool: close failed"], and the stub's response carries no error; the
    client stub, over a working connection, returns [nil] as well.  The
    stubs of [CreateUser], [RenewUser], [RevokeUser] and [Initialize] do
    return the implementation's error ([server_CreateUser_forwards] and
    the lemmas after it); [server_Close_nil] is the general form of the
    second statement. *)
Theorem server_Close_drops_error :
  scenario.sample_impl _ impl_Close 0 = (1, Some (errorString "pool: close failed")) ∧
  run scenario.sample_impl databasePluginRPCServer.Close 0 =
    (1, (WEmpty, None), [Ev impl_Close]) ∧
  run (plugin_transport scenario.sample_impl) databasePluginRPCClient.Close
    scenario.host_up =
    (delivered scenario.host_up 1, None, [Ev (rpc_Call "Plugin.Close" WEmpty)]).
Proof. split; [reflexivity|]. split; reflexivity. Qed.

(** C7, as stated, fails: through the client stub the type of an
    implementation of type ["postgres"] reads ["plugin-postgres"]. *)
Lemma client_Type_counterexample :
  scenario.sample_impl _ impl_Type 0 = (1, "postgres") ∧
  run (plugin_transport scenario.sample_impl) databasePluginRPCClient.Type_
    scenario.host_up =
    (delivered scenario.host_up 1, "plugin-postgres",
     [Ev (rpc_Call "Plugin.Type" WEmpty)]) ∧
  "plugin-postgres" ≠ "postgres".
Proof. split; [reflexivity|]. split; [reflexivity|discriminate]. Qed.

Ltac through_stub H :=
  rewrite run_perform_bind; simpl;
  unfold call_remote; simpl;
  match goal with Hlink : link _ = None |- _ => rewrite Hlink end; simpl;
  rewrite ?run_perform_bind, H; simpl.

(** C7, amended.  Over a working connection the client stub reaches the
    implementation behind the server stub with the arguments it was given,
    once; [Type] returns ["plugin-"] followed by the implementation's type;
    [CreateUser], [RenewUser], [RevokeUser] and [Initialize] return the
    implementation's error as net/rpc carries it ([over_wire]: an
    [rpc.ServerError] with the same message, and [nil] for [nil] and for an
    error whose message is empty); the three generators return the
    implementation's string when no error arrives, and the empty string
    with the error otherwise.  ([Close] is left out.) *)
Theorem client_stub_reaches_impl {S} (impl : handler DatabaseType S) (w : Host S) :
  link w = None →
  (∀ s' t,
     impl _ impl_Type (remote w) = (s', t) →
     run (plugin_transport impl) databasePluginRPCClient.Type_ w =
       (delivered w s', "plugin-" +:+ t, [Ev (rpc_Call "Plugin.Type" WEmpty)])) ∧
  (∀ st u p e s' err,
     impl _ (impl_CreateUser st u p e) (remote w) = (s', err) →
     run (plugin_transport impl) (databasePluginRPCClient.CreateUser st u p e) w =
       (delivered w s', over_wire err,
        [Ev (rpc_Call "Plugin.CreateUser" (WCreateUserRequest
               {| cu_Statements := st; cu_Username := u;
                  cu_Password := p; cu_Expiration := e |}))])) ∧
  (∀ st u e s' err,
     impl _ (impl_RenewUser st u e) (remote w) = (s', err) →
     run (plugin_transport impl) (databasePluginRPCClient.RenewUser st u e) w =
       (delivered w s', over_wire err,
        [Ev (rpc_Call "Plugin.RenewUser" (WRenewUserRequest
               {| rn_Statements := st; rn_Username := u; rn_Expiration := e |}))])) ∧
  (∀ st u s' err,
     impl _ (impl_RevokeUser st u) (remote w) = (s', err) →
     run (plugin_transport impl) (databasePluginRPCClient.RevokeUser st u) w =
       (delivered w s', over_wire err,
        [Ev (rpc_Call "Plugin.RevokeUser" (WRevokeUserRequest
               {| rv_Statements := st; rv_Username := u |}))])) ∧
  (∀ conf s' err,
     impl _ (impl_Initialize conf) (remote w) = (s', err) →
     run (plugin_transport impl) (databasePluginRPCClient.Initialize conf) w =
       (delivered w s', over_wire err,
        [Ev (rpc_Call "Plugin.Initialize" (WConf conf))])) ∧
  (∀ d s' u err,
     impl _ (impl_GenerateUsername d) (remote w) = (s', (u, err)) →
     run (plugin_transport impl) (databasePluginRPCClient.GenerateUsername d) w =
       (delivered w s', (match over_wire err with Some _ => "" | None => u end, over_wire err),
        [Ev (rpc_Call "Plugin.GenerateUsername" (WString d))])) ∧
  (∀ s' pw err,
     impl _ impl_GeneratePassword (remote w) = (s', (pw, err)) →
     run (plugin_transport impl) databasePluginRPCClient.GeneratePassword w =
       (delivered w s', (match over_wire err with Some _ => "" | None => pw end, over_wire err),
        [Ev (rpc_Call "Plugin.GeneratePassword" WEmpty)])) ∧
  (∀ d s' x err,
     impl _ (impl_GenerateExpiration d) (remote w) = (s', (x, err)) →
     run (plugin_transport impl) (databasePluginRPCClient.GenerateExpiration d) w =
       (delivered w s', (match over_wire err with Some _ => "" | None => x end, over_wire err),
        [Ev (rpc_Call "Plugin.GenerateExpiration" (WDuration d))])).
Proof.
  intros Hlink. repeat split.
  - intros s' t H. unfold databasePluginRPCClient.Type_. by through_stub H.
  - intros st u p e s' err H. unfold databasePluginRPCClient.CreateUser.
    through_stub H. by destruct (over_wire err).
  - intros st u e s' err H. unfold databasePluginRPCClient.RenewUser.
    through_stub H. by destruct (over_wire err).
  - intros st u s' err H. unfold databasePluginRPCClient.RevokeUser.
    through_stub H. by destruct (over_wire err).
  - intros conf s' err H. unfold databasePluginRPCClient.Initialize.
    through_stub H. by destruct (over_wire err).
  - intros d s' u err H. unfold databasePluginRPCClient.GenerateUsername.
    through_stub H. by destruct (over_wire err).
  - intros s' pw err H. unfold databasePluginRPCClient.GeneratePassword.
    through_stub H. by destruct (over_wire err).
  - intros d s' x err H. unfold databasePluginRPCClient.GenerateExpiration.
    through_stub H. by destruct (over_wire err).
Qed.

(** [Type] through the stubs of the sample implementation; a [RevokeUser]
    error with a message and a [CreateUser] error without one through the
    stubs of the terse implementation. *)
Lemma client_stub_reaches_impl_witness :
  link scenario.host_up = None ∧
  (scenario.sample_impl _ impl_Type (remote scenario.host_up) =
     (1, "postgres") ∧
   run (plugin_transport scenario.sample_impl)
     databasePluginRPCClient.Type_ scenario.host_up =
     (delivered scenario.host_up 1, "plugin-" +:+ "postgres",
      [Ev (rpc_Call "Plugin.Type" WEmpty)])) ∧
  (scenario_failures.terse_impl _ (impl_RevokeUser scenario.stmts "alice")
     (remote scenario.host_up) = (1, Some (errorString "no such user")) ∧
   run (plugin_transport scenario_failures.terse_impl)
     (databasePluginRPCClient.RevokeUser scenario.stmts "alice") scenario.host_up =
     (delivered scenario.host_up 1, Some (ServerError "no such user"),
      [Ev (rpc_Call "Plugin.RevokeUser" (WRevokeUserRequest
             {| rv_Statements := scenario.stmts; rv_Username := "alice" |}))])) ∧
  (scenario_failures.terse_impl _
     (impl_CreateUser scenario.stmts "alice" "p@ss" "2024-01-01T00:00:00Z")
     (remote scenario.host_up) = (1, Some (errorString "")) ∧
   run (plugin_transport scenario_failures.terse_impl)
     (databasePluginRPCClient.CreateUser scenario.stmts "alice" "p@ss"
        "2024-01-01T00:00:00Z") scenario.host_up =
     (delivered scenario.host_up 1, None,
      [Ev (rpc_Call "Plugin.CreateUser" (WCreateUserRequest
             {| cu_Statements := scenario.stmts; cu_Username := "alice";
                cu_Password := "p@ss";
                cu_Expiration := "2024-01-01T00:00:00Z" |}))])).
Proof.
  pose proof (client_stub_reaches_impl scenario.sample_impl
                scenario.host_up eq_refl) as (HType & _).
  pose proof (client_stub_reaches_impl scenario_failures.terse_impl
                scenario.host_up eq_refl) as (_ & HCreate & _ & HRevoke & _).
  split; [reflexivity|]. split; [|split].
  - split; [reflexivity|]. exact (HType 1 "postgres" eq_refl).
  - split; [reflexivity|]. exact (HRevoke _ _ 1 _ eq_refl).
  - split; [reflexivity|]. exact (HCreate _ _ _ _ 1 _ eq_refl).
Defined.

End plugin_claims.

(** ** The factory *)

Section factory_claims.

Import dbs.

Context {sqlDetails cassandraDetails : Type}.
Variable Decode_sql : gmap string any → sqlDetails + error.
Variable Decode_cassandra : gmap string any → cassandraDetails + error.

(** C4.  [Factory] selects on the exact value of the configuration's type:
    ["postgres"] with decodable details gives a PostgreSQL object built from
    the configuration and the decoded details, ["cassandra"] likewise a
    Cassandra object; any other type gives no object and
    [ErrUnsupportedDatabaseType]; a decode failure gives no object and the
    decode error. *)
Theorem Factory_selects_by_type (conf : DatabaseConfig) :
  (∀ details,
     DatabaseType conf = "postgres" →
     Decode_sql (ConnectionDetails conf) = inl details →
     Factory Decode_sql Decode_cassandra conf =
       (Some (PostgreSQL {| sql_config := conf; sql_connDetails := details |}
                         {| displayNameLen := 23; usernameLen := 63 |}),
        None)) ∧
  (∀ details,
     DatabaseType conf = "cassandra" →
     Decode_cassandra (ConnectionDetails conf) = inl details →
     Factory Decode_sql Decode_cassandra conf =
       (Some (Cassandra {| cassandra_config := conf;
                           cassandra_connDetails := details |}
                        Build_cassandraCredentialsProducer),
        None)) ∧
  (DatabaseType conf ≠ "postgres" → DatabaseType conf ≠ "cassandra" →
     Factory Decode_sql Decode_cassandra conf =
       (None, Some ErrUnsupportedDatabaseType)) ∧
  (∀ err,
     DatabaseType conf = "postgres" →
     Decode_sql (ConnectionDetails conf) = inr err →
     Factory Decode_sql Decode_cassandra conf = (None, Some err)) ∧
  (∀ err,
     DatabaseType conf = "cassandra" →
     Decode_cassandra (ConnectionDetails conf) = inr err →
     Factory Decode_sql Decode_cassandra conf = (None, Some err)).
Proof.
  unfold Factory, postgreSQLTypeName, cassandraTypeName.
  repeat split.
  - intros details -> ->. reflexivity.
  - intros details -> ->. reflexivity.
  - intros Hpg Hcas.
    apply String.eqb_neq in Hpg as ->. by apply String.eqb_neq in Hcas as ->.
  - intros err -> ->. reflexivity.
  - intros err -> ->. reflexivity.
Qed.

End factory_claims.

Lemma Factory_selects_by_type_witness :
  let pg := scenario.conf_of "postgres" {[ "connection_url" := AString "postgres://db" ]} in
  let unknown := scenario.conf_of "unknown" ∅ in
  let broken := scenario.conf_of "cassandra" ∅ in
  (dbs.DatabaseType pg = "postgres" ∧
   scenario.decode_url (dbs.ConnectionDetails pg) = inl "postgres://db" ∧
   dbs.Factory scenario.decode_url scenario.decode_hosts pg =
     (Some (dbs.PostgreSQL
              {| dbs.sql_config := pg; dbs.sql_connDetails := "postgres://db" |}
              {| dbs.displayNameLen := 23; dbs.usernameLen := 63 |}),
      None)) ∧
  (dbs.DatabaseType unknown ≠ "postgres" ∧ dbs.DatabaseType unknown ≠ "cassandra" ∧
   dbs.Factory scenario.decode_url scenario.decode_hosts unknown =
     (None, Some ErrUnsupportedDatabaseType)) ∧
  (dbs.DatabaseType broken = "cassandra" ∧
   scenario.decode_hosts (dbs.ConnectionDetails broken) =
     inr (errorString "hosts: expected a string") ∧
   dbs.Factory scenario.decode_url scenario.decode_hosts broken =
     (None, Some (errorString "hosts: expected a string"))).
Proof.
  intros pg unknown broken.
  pose proof (Factory_selects_by_type scenario.decode_url scenario.decode_hosts pg)
    as (Hpg & _).
  pose proof (Factory_selects_by_type scenario.decode_url scenario.decode_hosts unknown)
    as (_ & _ & Hunknown & _).
  pose proof (Factory_selects_by_type scenario.decode_url scenario.decode_hosts broken)
    as (_ & _ & _ & _ & Hbroken).
  split; [|split].
  - split; [reflexivity|]. split; [reflexivity|]. by apply Hpg.
  - split; [discriminate|]. split; [discriminate|]. by apply Hunknown.
  - split; [reflexivity|]. split; [reflexivity|]. by apply Hbroken.
Defined.

(** ** The credentials handler *)

Section creds_claims.

Import database.

Variable SecretCreds : framework_Secret.

Lemma StrListContains_elem_of (haystack : list string) (needle : string) :
  StrListContains haystack needle = true ↔ needle ∈ haystack.
Proof.
  induction haystack as [|item rest IH]; simpl.
  - split; [done | by intros ?%elem_of_nil].
  - rewrite elem_of_cons. destruct (String.eqb_spec item needle) as [->|Hne].
    + split; auto.
    + rewrite IH. split; [by right | by intros [?|?]].
Qed.

Lemma StrListContains_not_elem_of (haystack : list string) (needle : string) :
  StrListContains haystack needle = false ↔ needle ∉ haystack.
Proof.
  rewrite <-StrListContains_elem_of. by destruct (StrListContains _ _).
Qed.

(** The handler up to the allow-list test, for a role and a configuration
    that storage returned. *)
Lemma creds_after_lookups {W} (h : handler backend W) (w w1 w2 : W)
    (req : Request) (data : FieldData) (role : roleEntry) (cfg : DatabaseConfig) :
  h _ (b_Role (req_Storage req) (Get data "name")) w = (w1, (Some role, None)) →
  h _ (b_DatabaseConfig (req_Storage req) (DBName role)) w1 = (w2, (Some cfg, None)) →
  run h (pathCredsCreateRead SecretCreds req data) w =
    let '(w', r, calls) :=
      run h
        (if (negb (StrListContains (AllowedRoles cfg) "*") &&
             negb (StrListContains (AllowedRoles cfg) (Get data "name")))%bool
         then mret (Return None (Some ErrPermissionDenied))
         else
           _ ← perform b_Lock;
           r ← pathCredsCreateRead_locked SecretCreds req (Get data "name") role;
           _ ← perform b_Unlock;
           mret r) w2 in
    (w', r, Ev (b_Role (req_Storage req) (Get data "name")) ::
            Ev (b_DatabaseConfig (req_Storage req) (DBName role)) :: calls).
Proof.
  intros Hrole Hcfg. unfold pathCredsCreateRead.
  rewrite run_perform_bind, Hrole. cbv beta iota zeta.
  rewrite run_perform_bind, Hcfg. cbv beta iota zeta.
  by destruct (run h _ w2) as [[w' r] calls].
Qed.

(** C1.  For a role and a configuration that storage returned: when the
    allowed roles contain neither ["*"] nor the role's name the handler
    returns [ErrPermissionDenied], having called nothing but the two storage
    accessors (no lock, no cache lookup, no CreateUser) and leaving the
    world as they left it; conversely a response is returned only when the
    allowed roles contain ["*"] or the role's name. *)
Theorem creds_allow_list {W} (h : handler backend W) (w w1 w2 : W)
    (req : Request) (data : FieldData) (role : roleEntry) (cfg : DatabaseConfig) :
  h _ (b_Role (req_Storage req) (Get data "name")) w = (w1, (Some role, None)) →
  h _ (b_DatabaseConfig (req_Storage req) (DBName role)) w1 = (w2, (Some cfg, None)) →
  ("*" ∉ AllowedRoles cfg → Get data "name" ∉ AllowedRoles cfg →
   run h (pathCredsCreateRead SecretCreds req data) w =
     (w2, Return None (Some ErrPermissionDenied),
      [Ev (b_Role (req_Storage req) (Get data "name"));
       Ev (b_DatabaseConfig (req_Storage req) (DBName role))])) ∧
  (∀ w' resp err calls,
     run h (pathCredsCreateRead SecretCreds req data) w =
       (w', Return (Some resp) err, calls) →
     "*" ∈ AllowedRoles cfg ∨ Get data "name" ∈ AllowedRoles cfg).
Proof.
  intros Hrole Hcfg.
  rewrite (creds_after_lookups h w w1 w2 req data role cfg Hrole Hcfg).
  split.
  - intros Hstar%StrListContains_not_elem_of Hname%StrListContains_not_elem_of.
    rewrite Hstar, Hname. reflexivity.
  - intros w' resp err calls.
    destruct (StrListContains (AllowedRoles cfg) "*") eqn:Hstar;
      [left; by apply StrListContains_elem_of|].
    destruct (StrListContains (AllowedRoles cfg) (Get data "name")) eqn:Hname;
      [right; by apply StrListContains_elem_of|].
    simpl. intros [=].
Qed.

(** C3.  With storage accessors that answer "Config | NotFound"
    ([getDatabaseConfig]): when the configuration the role names is not
    stored, the handler returns the [NotFoundConfig] error as its error,
    after the two storage accessors and nothing else. *)
Theorem creds_missing_config {W} (h : handler backend W) (w w1 w2 : W)
    (req : Request) (data : FieldData) (role : roleEntry) :
  h _ (b_Role (req_Storage req) (Get data "name")) w = (w1, (Some role, None)) →
  h _ (b_DatabaseConfig (req_Storage req) (DBName role)) w1 =
    (w2, getDatabaseConfig (req_Storage req) (DBName role)) →
  configs (req_Storage req) !! DBName role = None →
  run h (pathCredsCreateRead SecretCreds req data) w =
    (w2, Return None (Some (NotFoundConfig (DBName role))),
     [Ev (b_Role (req_Storage req) (Get data "name"));
      Ev (b_DatabaseConfig (req_Storage req) (DBName role))]).
Proof.
  intros Hrole Hcfg Hmissing. unfold getDatabaseConfig in Hcfg.
  rewrite Hmissing in Hcfg. unfold pathCredsCreateRead.
  rewrite run_perform_bind, Hrole. cbv beta iota zeta.
  rewrite run_perform_bind, Hcfg. reflexivity.
Qed.

(** C2, amended.  When the role and the configuration are found, the role
    is allowed, the cache returns a database object and its [CreateUser]
    succeeds: [CreateUser] was called, under the lock, with the role's
    statements, the caller's display name and the current time plus the
    role's default TTL; the response carries the username and password
    that [CreateUser] returned as payload, that username and the role's
    name as internal data, and the role's default TTL as lease TTL. *)
Theorem creds_response {W} (h : handler backend W) (w w1 w2 w3 w4 w5 w6 w7 : W)
    (req : Request) (data : FieldData) (role : roleEntry) (cfg : DatabaseConfig)
    (db : handle) (now : Z) (username password : string) :
  h _ (b_Role (req_Storage req) (Get data "name")) w = (w1, (Some role, None)) →
  h _ (b_DatabaseConfig (req_Storage req) (DBName role)) w1 = (w2, (Some cfg, None)) →
  "*" ∈ AllowedRoles cfg ∨ Get data "name" ∈ AllowedRoles cfg →
  h _ b_Lock w2 = (w3, ()) →
  h _ (b_getOrCreateDBObj (req_Storage req) (DBName role)) w3 = (w4, (Some db, None)) →
  h _ time_Now w4 = (w5, now) →
  h _ (db_CreateUser db (Statements role) (DisplayName req) (now + DefaultTTL role)) w5 =
    (w6, (username, password, None)) →
  h _ b_Unlock w6 = (w7, ()) →
  ∃ resp sec,
    run h (pathCredsCreateRead SecretCreds req data) w =
      (w7, Return (Some resp) None,
       [Ev (b_Role (req_Storage req) (Get data "name"));
        Ev (b_DatabaseConfig (req_Storage req) (DBName role));
        Ev b_Lock;
        Ev (b_getOrCreateDBObj (req_Storage req) (DBName role));
        Ev time_Now;
        Ev (db_CreateUser db (Statements role) (DisplayName req)
              (now + DefaultTTL role));
        Ev b_Unlock]) ∧
    Data resp = {[ "username" := username; "password" := password ]} ∧
    resp_Secret resp = Some sec ∧
    InternalData sec =
      <[ "secret_type" := secret_Type SecretCreds ]>
        {[ "username" := username; "role" := Get data "name" ]} ∧
    InternalData sec !! "username" = Some username ∧
    InternalData sec !! "role" = Some (Get data "name") ∧
    TTL sec = DefaultTTL role.
Proof.
  intros Hrole Hcfg Hallowed Hlock Hdb Hnow Hcreate Hunlock.
  rewrite (creds_after_lookups h w w1 w2 req data role cfg Hrole Hcfg).
  assert ((negb (StrListContains (AllowedRoles cfg) "*") &&
           negb (StrListContains (AllowedRoles cfg) (Get data "name")))%bool = false)
    as ->.
  { destruct Hallowed as [H%StrListContains_elem_of | H%StrListContains_elem_of];
      rewrite H; [done | apply andb_false_r]. }
  rewrite run_perform_bind, Hlock. cbv beta iota zeta.
  rewrite run_bind. unfold pathCredsCreateRead_locked.
  rewrite run_perform_bind, Hdb. cbv beta iota zeta.
  rewrite run_perform_bind, Hnow. cbv beta iota zeta.
  rewrite run_perform_bind, Hcreate. cbv beta iota zeta. simpl.
  rewrite Hunlock. eexists _, _.
  split; [reflexivity|]. split; [reflexivity|]. split; [reflexivity|].
  split; [reflexivity|]. simpl. split; [|split; [|reflexivity]].
  - rewrite lookup_insert_ne by done. by rewrite lookup_insert_eq.
  - rewrite lookup_insert_ne by done. rewrite lookup_insert_ne by done.
    by rewrite lookup_singleton_eq.
Qed.

End creds_claims.

Section creds_scenarios.

Import database scenario.

(** Role ["admin"] is not among the allowed roles of ["pg"]; role
    ["readonly"] is, and gets a response. *)
Lemma creds_allow_list_witness :
  (stub_backend _ (b_Role storage (Get {[ "name" := "admin" ]} "name")) world0 =
     (world0, (Some {| DBName := "pg"; Statements := stmts; DefaultTTL := 60 |}, None)) ∧
   stub_backend _ (b_DatabaseConfig storage "pg") world0 =
     (world0, (Some pg_config, None)) ∧
   ("*" ∉ AllowedRoles pg_config) ∧
   (Get {[ "name" := "admin" ]} "name" ∉ AllowedRoles pg_config) ∧
   run stub_backend
     (pathCredsCreateRead creds request {[ "name" := "admin" ]}) world0 =
     (world0, Return None (Some ErrPermissionDenied),
      [Ev (b_Role storage "admin"); Ev (b_DatabaseConfig storage "pg")])) ∧
  (stub_backend _ (b_Role storage (Get {[ "name" := "readonly" ]} "name")) world0 =
     (world0, (Some readonly_role, None)) ∧
   run stub_backend
     (pathCredsCreateRead creds request {[ "name" := "readonly" ]}) world0 =
     (world_issued, Return (Some issued_response) None,
      [Ev (b_Role storage "readonly"); Ev (b_DatabaseConfig storage "pg");
       Ev b_Lock; Ev (b_getOrCreateDBObj storage "pg"); Ev time_Now;
       Ev (db_CreateUser 0 stmts "token" 4600); Ev b_Unlock]) ∧
   ("*" ∈ AllowedRoles pg_config ∨
    Get {[ "name" := "readonly" ]} "name" ∈ AllowedRoles pg_config)).
Proof.
  assert (Hstar : "*" ∉ AllowedRoles pg_config).
  { apply not_elem_of_cons. split; [discriminate | apply not_elem_of_nil]. }
  assert (Hadmin : Get {[ "name" := "admin" ]} "name" ∉ AllowedRoles pg_config).
  { apply not_elem_of_cons. split; [discriminate | apply not_elem_of_nil]. }
  split.
  - split; [reflexivity|]. split; [reflexivity|]. split; [exact Hstar|].
    split; [exact Hadmin|].
    exact (proj1 (creds_allow_list creds stub_backend world0 world0 world0
                    request {[ "name" := "admin" ]} _ pg_config
                    eq_refl eq_refl) Hstar Hadmin).
  - split; [reflexivity|]. split; [reflexivity|].
    exact (proj2 (creds_allow_list creds stub_backend world0 world0 world0
                    request {[ "name" := "readonly" ]} readonly_role pg_config
                    eq_refl eq_refl) _ _ _ _ eq_refl).
Defined.

(** Role ["orphan"] names the configuration ["gone"], which is not stored. *)
Lemma creds_missing_config_witness :
  stub_backend _ (b_Role storage (Get {[ "name" := "orphan" ]} "name")) world0 =
    (world0, (Some {| DBName := "gone"; Statements := stmts; DefaultTTL := 60 |}, None)) ∧
  stub_backend _ (b_DatabaseConfig storage "gone") world0 =
    (world0, getDatabaseConfig storage "gone") ∧
  configs storage !! "gone" = None ∧
  run stub_backend
    (pathCredsCreateRead creds request {[ "name" := "orphan" ]}) world0 =
    (world0, Return None (Some (NotFoundConfig "gone")),
     [Ev (b_Role storage "orphan"); Ev (b_DatabaseConfig storage "gone")]).
Proof.
  split; [reflexivity|]. split; [reflexivity|]. split; [reflexivity|].
  exact (creds_missing_config creds stub_backend world0 world0 world0
           request {[ "name" := "orphan" ]} _ eq_refl eq_refl eq_refl).
Defined.

(** The stub database object returns ["alice"] and ["p@ss"]. *)
Lemma creds_response_witness :
  stub_backend _ (b_Role storage (Get {[ "name" := "readonly" ]} "name")) world0 =
    (world0, (Some readonly_role, None)) ∧
  stub_backend _ (b_DatabaseConfig storage "pg") world0 =
    (world0, (Some pg_config, None)) ∧
  (Get {[ "name" := "readonly" ]} "name" ∈ AllowedRoles pg_config) ∧
  stub_backend _ b_Lock world0 = (world0, ()) ∧
  stub_backend _ (b_getOrCreateDBObj storage "pg") world0 =
    (world_cached, (Some 0, None)) ∧
  stub_backend _ time_Now world_cached = (world_cached, 1000%Z) ∧
  stub_backend _ (db_CreateUser 0 stmts "token" (1000 + 3600)) world_cached =
    (world_issued, ("alice", "p@ss", None)) ∧
  stub_backend _ b_Unlock world_issued = (world_issued, ()) ∧
  ∃ resp sec,
    run stub_backend
      (pathCredsCreateRead creds request {[ "name" := "readonly" ]}) world0 =
      (world_issued, Return (Some resp) None,
       [Ev (b_Role storage "readonly"); Ev (b_DatabaseConfig storage "pg");
        Ev b_Lock; Ev (b_getOrCreateDBObj storage "pg"); Ev time_Now;
        Ev (db_CreateUser 0 stmts "token" (1000 + 3600)); Ev b_Unlock]) ∧
    Data resp = {[ "username" := "alice"; "password" := "p@ss" ]} ∧
    resp_Secret resp = Some sec ∧
    InternalData sec =
      <[ "secret_type" := "creds" ]>
        {[ "username" := "alice"; "role" := "readonly" ]} ∧
    InternalData sec !! "username" = Some "alice" ∧
    InternalData sec !! "role" = Some "readonly" ∧
    TTL sec = 3600%Z.
Proof.
  assert (Hin : Get {[ "name" := "readonly" ]} "name" ∈ AllowedRoles pg_config)
    by (by apply list_elem_of_singleton).
  split; [reflexivity|]. split; [reflexivity|]. split; [exact Hin|].
  split; [reflexivity|]. split; [reflexivity|]. split; [reflexivity|].
  split; [reflexivity|]. split; [reflexivity|].
  exact (creds_response creds stub_backend world0 world0 world0 world0
           world_cached world_cached world_issued world_issued
           request {[ "name" := "readonly" ]} readonly_role pg_config 0 1000
           "alice" "p@ss" eq_refl eq_refl (or_intror Hin)
           eq_refl eq_refl eq_refl eq_refl eq_refl).
Defined.

(** C2, as stated, fails.  For role ["readonly"] the handler issues
    credentials; what it sends to [CreateUser] is the role's statements,
    the display name ["token"] itself and the expiration, no password; it
    calls neither credential hook of the database object (whose
    [GenerateUsername "token"] would be ["v-token"] and whose
    [GeneratePassword] ["s3cret"]); the username and password of the
    response are the ones [CreateUser] returned. *)
Lemma creds_generated_counterexample :
  run stub_backend
    (pathCredsCreateRead creds request {[ "name" := "readonly" ]}) world0 =
    (world_issued, Return (Some issued_response) None,
     [Ev (b_Role storage "readonly"); Ev (b_DatabaseConfig storage "pg");
      Ev b_Lock; Ev (b_getOrCreateDBObj storage "pg"); Ev time_Now;
      Ev (db_CreateUser 0 stmts "token" 4600); Ev b_Unlock]) ∧
  existsb is_generate_call
    (run stub_backend
       (pathCredsCreateRead creds request {[ "name" := "readonly" ]}) world0).2 = false ∧
  stub_backend _ (db_GenerateUsername 0 "token") world_cached =
    (world_cached, ("v-token", None)) ∧
  stub_backend _ (db_GeneratePassword 0) world_cached =
    (world_cached, ("s3cret", None)) ∧
  Data issued_response !! "username" = Some "alice" ∧
  Data issued_response !! "password" = Some "p@ss" ∧
  "alice" ≠ "v-token" ∧ "p@ss" ≠ "s3cret".
Proof.
  split; [reflexivity|]. split; [reflexivity|]. split; [reflexivity|].
  split; [reflexivity|]. split; [reflexivity|]. split; [reflexivity|].
  split; discriminate.
Qed.

End creds_scenarios.

(** ** Statement templating *)

Section template_claims.

Import scenario.

Lemma range_order_empty entries : range_order ∅ entries ↔ entries = [].
Proof.
  unfold range_order. rewrite map_to_list_empty. split.
  - apply Permutation_nil_r.
  - by intros ->.
Qed.

Lemma range_order_insert (data : gmap string string) entries k v :
  data !! k = None → range_order data entries →
  range_order (<[k := v]> data) ((k, v) :: entries).
Proof.
  unfold range_order. intros Hk Hperm.
  by rewrite map_to_list_insert, Hperm.
Qed.

Lemma range_order_singleton (k v : string) : range_order {[k := v]} [(k, v)].
Proof. unfold range_order. by rewrite map_to_list_singleton. Qed.

Lemma range_order_swap (data : gmap string string) kv1 kv2 entries :
  range_order data (kv1 :: kv2 :: entries) →
  range_order data (kv2 :: kv1 :: entries).
Proof. unfold range_order. intros <-. apply perm_swap. Qed.

(** [queryHelper] returns, whatever the order of iteration. *)
Lemma queryHelper_returns (tpl : string) (data : gmap string string) :
  ∃ out, queryHelper tpl data out.
Proof.
  exists (queryHelper_range tpl (map_to_list data)), (map_to_list data).
  split; [by unfold range_order | reflexivity].
Qed.

Lemma nested_data_order :
  range_order nested_data [("a", "{{b}}"); ("b", "x")].
Proof.
  apply range_order_insert; [done|]. apply range_order_singleton.
Qed.

Lemma user_data_order :
  range_order user_data [("name", "alice"); ("password", "p@ss")].
Proof.
  apply range_order_insert; [done|]. apply range_order_singleton.
Qed.

Lemma user_data_brace_free :
  map_Forall (λ k v, brace_free k = true ∧ brace_free v = true) user_data.
Proof.
  apply map_Forall_insert_2; [done|]. by apply map_Forall_singleton.
Qed.

Lemma chained_data_order : range_order chained_data [("a", "b"); ("b", "x")].
Proof.
  apply range_order_insert; [done|]. apply range_order_singleton.
Qed.

Lemma overlapping_data_order :
  range_order overlapping_data [("a", "1"); ("a}}{{a", "2")].
Proof.
  apply range_order_insert; [done|]. apply range_order_singleton.
Qed.

(** C8, as stated, fails: the two orders of iteration give two different
    strings
    - when a value is itself a placeholder of another key,
    - when the template has braces around a placeholder,
    - when a key spans two placeholders of another key. *)
Lemma queryHelper_order_counterexample :
  (queryHelper "{{a}}" nested_data "x" ∧
   queryHelper "{{a}}" nested_data "{{b}}" ∧
   "x" ≠ "{{b}}") ∧
  (queryHelper "{{{{a}}}}" chained_data "x" ∧
   queryHelper "{{{{a}}}}" chained_data "{{b}}") ∧
  (queryHelper "{{a}}{{a}}" overlapping_data "11" ∧
   queryHelper "{{a}}{{a}}" overlapping_data "2" ∧
   "11" ≠ "2").
Proof.
  split; [|split].
  - split; [|split; [|discriminate]].
    + exists [("a", "{{b}}"); ("b", "x")].
      split; [apply nested_data_order | reflexivity].
    + exists [("b", "x"); ("a", "{{b}}")].
      split; [apply range_order_swap, nested_data_order | reflexivity].
  - split.
    + exists [("a", "b"); ("b", "x")].
      split; [apply chained_data_order | reflexivity].
    + exists [("b", "x"); ("a", "b")].
      split; [apply range_order_swap, chained_data_order | reflexivity].
  - split; [|split; [|discriminate]].
    + exists [("a", "1"); ("a}}{{a", "2")].
      split; [apply overlapping_data_order | reflexivity].
    + exists [("a}}{{a", "2"); ("a", "1")].
      split; [apply range_order_swap, overlapping_data_order | reflexivity].
Qed.

(** C8, amended.  On a template made of brace-free text and placeholders
    with brace-free keys, with data whose keys and values are brace-free,
    every order of iteration gives the same string, and that string is
    the template with each placeholder replaced once, by the value as it
    stands in the map (no quoting, no second pass over a value). *)
Theorem queryHelper_order_independent (cs : list chunk)
    (data : gmap string string) (out1 out2 : string) :
  Forall (λ c, chunk_wf c = true) cs →
  map_Forall (λ k v, brace_free k = true ∧ brace_free v = true) data →
  queryHelper (render cs) data out1 →
  queryHelper (render cs) data out2 →
  out1 = out2 ∧ out1 = render (subst data cs).
Proof.
  intros Hcs Hdata (l1 & Hl1 & ->) (l2 & Hl2 & ->).
  by rewrite !(queryHelper_render data).
Qed.

Lemma queryHelper_order_independent_witness :
  Forall (λ c, chunk_wf c = true) create_user_template ∧
  map_Forall (λ k v, brace_free k = true ∧ brace_free v = true) user_data ∧
  queryHelper (render create_user_template) user_data
    (queryHelper_range "CREATE USER {{name}} WITH PASSWORD {{password}}"
       [("name", "alice"); ("password", "p@ss")]) ∧
  queryHelper (render create_user_template) user_data
    (queryHelper_range "CREATE USER {{name}} WITH PASSWORD {{password}}"
       [("password", "p@ss"); ("name", "alice")]) ∧
  queryHelper_range "CREATE USER {{name}} WITH PASSWORD {{password}}"
    [("name", "alice"); ("password", "p@ss")] =
  queryHelper_range "CREATE USER {{name}} WITH PASSWORD {{password}}"
    [("password", "p@ss"); ("name", "alice")] ∧
  queryHelper_range "CREATE USER {{name}} WITH PASSWORD {{password}}"
    [("name", "alice"); ("password", "p@ss")] =
  render (subst user_data create_user_template).
Proof.
  assert (Hcs : Forall (λ c, chunk_wf c = true) create_user_template)
    by (repeat constructor).
  assert (H1 : queryHelper (render create_user_template) user_data
    (queryHelper_range "CREATE USER {{name}} WITH PASSWORD {{password}}"
       [("name", "alice"); ("password", "p@ss")])).
  { eexists. split; [apply user_data_order | reflexivity]. }
  assert (H2 : queryHelper (render create_user_template) user_data
    (queryHelper_range "CREATE USER {{name}} WITH PASSWORD {{password}}"
       [("password", "p@ss"); ("name", "alice")])).
  { eexists. split; [apply range_order_swap, user_data_order | reflexivity]. }
  split; [exact Hcs|]. split; [exact user_data_brace_free|].
  split; [exact H1|]. split; [exact H2|].
  exact (queryHelper_order_independent create_user_template user_data _ _
           Hcs user_data_brace_free H1 H2).
Defined.

(** C10, as stated, fails: with a key that spans two placeholders, the
    placeholders [{{c}}] and [{{d}}], whose keys are not in the map, are
    not left in the output. *)
Lemma queryHelper_absent_counterexample :
  spanning_data !! "c" = None ∧ spanning_data !! "d" = None ∧
  render [Tok "c"; Lit " "; Tok "d"] = "{{c}} {{d}}" ∧
  queryHelper "{{c}} {{d}}" spanning_data "boom" ∧
  has_char "{" "boom" = false.
Proof.
  split; [reflexivity|]. split; [reflexivity|]. split; [reflexivity|].
  split; [|reflexivity].
  exists [("c}} {{d", "boom")]. split; [apply range_order_singleton | reflexivity].
Qed.

(** C10, amended.  For data whose keys are brace-free:
    - the pass of the loop for a key [k] of the map replaces the
      placeholder [{{k}}] by the value wherever it occurs in the string,
      whatever precedes and follows it;
    - on a template made of brace-free text and placeholders with
      brace-free keys, and with brace-free values, every placeholder whose
      key is in the map (each occurrence of it) is replaced by the value,
      and the others are left as they are;
    - in any template, a placeholder with a brace-free key that is not in
      the map is left verbatim, the text before it and the text after it
      being rewritten each on its own;
    - with the empty map the template is returned unchanged;
    and the helper returns a string in every case. *)
Theorem queryHelper_placeholders (data : gmap string string) :
  map_Forall (λ k _, brace_free k = true) data →
  (∀ p k q v,
     data !! k = Some v →
     queryHelper_step (p +:+ token k +:+ q) (k, v) =
       queryHelper_step p (k, v) +:+ v +:+ queryHelper_step q (k, v)) ∧
  (∀ cs out,
     map_Forall (λ _ v, brace_free v = true) data →
     Forall (λ c, chunk_wf c = true) cs →
     queryHelper (render cs) data out → out = render (subst data cs)) ∧
  (∀ p k q out,
     brace_free k = true → data !! k = None →
     queryHelper (p +:+ token k +:+ q) data out →
     ∃ out_p out_q,
       queryHelper p data out_p ∧ queryHelper q data out_q ∧
       out = out_p +:+ token k +:+ out_q) ∧
  (∀ tpl out, data = ∅ → queryHelper tpl data out → out = tpl) ∧
  (∀ tpl, ∃ out, queryHelper tpl data out).
Proof.
  intros Hkeys. split; [|split; [|split; [|split]]].
  - intros p k q v Hkv.
    rewrite step_around_token by (by eapply Hkeys). by rewrite decide_True.
  - intros cs out Hvals Hcs (l & Hl & ->). apply queryHelper_render; [done| |done].
    intros k v Hkv. split; [by eapply Hkeys | by eapply Hvals].
  - intros p k q out Hk Habsent (l & Hl & ->).
    exists (queryHelper_range p l), (queryHelper_range q l).
    split; [by exists l|]. split; [by exists l|].
    apply range_absent_token; [done|].
    assert (Hdata : map_Forall (λ k' _, brace_free k' = true ∧ k' ≠ k) data).
    { intros k' v' Hkv. split; [by eapply Hkeys|]. intros ->. congruence. }
    eapply Forall_impl; [exact (range_order_Forall _ data l Hl Hdata)|].
    by intros [k' v'].
  - intros tpl out -> (l & Hl & ->). by apply range_order_empty in Hl as ->.
  - intros tpl. apply queryHelper_returns.
Qed.

Lemma queryHelper_placeholders_witness :
  map_Forall (λ k _, brace_free k = true) user_data ∧
  map_Forall (λ _ v, brace_free v = true) user_data ∧
  Forall (λ c, chunk_wf c = true) grant_template ∧
  render grant_template = "GRANT {{privs}} TO {{name}} -- {{name}}" ∧
  queryHelper (render grant_template) user_data
    "GRANT {{privs}} TO alice -- alice" ∧
  "GRANT {{privs}} TO alice -- alice" = render (subst user_data grant_template) ∧
  brace_free "privs" = true ∧ user_data !! "privs" = None ∧
  (∃ out_p out_q,
     queryHelper "GRANT " user_data out_p ∧
     queryHelper " TO {{name}} -- {{name}}" user_data out_q ∧
     "GRANT {{privs}} TO alice -- alice" = out_p +:+ token "privs" +:+ out_q) ∧
  (∀ out, queryHelper "DROP USER {{name}}" ∅ out → out = "DROP USER {{name}}").
Proof.
  assert (Hkeys : map_Forall (λ k (_ : string), brace_free k = true) user_data).
  { intros k v Hkv. by destruct (user_data_brace_free k v Hkv). }
  assert (Hvals : map_Forall (λ (_ : string) v, brace_free v = true) user_data).
  { intros k v Hkv. by destruct (user_data_brace_free k v Hkv). }
  assert (Hcs : Forall (λ c, chunk_wf c = true) grant_template)
    by (repeat constructor).
  assert (Hout : queryHelper (render grant_template) user_data
                   "GRANT {{privs}} TO alice -- alice").
  { exists [("name", "alice"); ("password", "p@ss")].
    split; [apply user_data_order | reflexivity]. }
  split; [exact Hkeys|]. split; [exact Hvals|]. split; [exact Hcs|].
  split; [reflexivity|]. split; [exact Hout|]. split; [|split; [|split; [|split]]].
  - exact (proj1 (proj2 (queryHelper_placeholders user_data Hkeys))
             grant_template _ Hvals Hcs Hout).
  - reflexivity.
  - reflexivity.
  - exact (proj1 (proj2 (proj2 (queryHelper_placeholders user_data Hkeys)))
             "GRANT " "privs" " TO {{name}} -- {{name}}" _ eq_refl eq_refl Hout).
  - intros out.
    exact (proj1 (proj2 (proj2 (proj2
             (queryHelper_placeholders ∅ (map_Forall_empty _)))))
             "DROP USER {{name}}" out eq_refl).
Defined.

End template_claims.

(* ===================================================================== *)
(** * Part III. Further properties of the code                             *)
(* ===================================================================== *)

(** ** The credentials handler on every path *)

Section creds_paths.

Import database creds_protocol.

Variable SecretCreds : framework_Secret.

(** One step of a run against an arbitrary handler [h]: perform the next
    call and name what it returned, or split on a returned value. *)
Ltac run_step h :=
  first
    [ rewrite run_perform_bind;
      match goal with
      | |- context [h ?X ?e ?w] =>
          let w' := fresh "w" in
          let x := fresh "x" in
          destruct (h X e w) as [w' x] eqn:?; cbv beta iota zeta
      end
    | rewrite run_bind
    | progress (cbn [run mret Prog_mret set_TTL Secret_Response resp_Secret];
                cbv beta iota zeta)
    | match goal with
      | x : (_ * _)%type |- _ => destruct x; cbv beta iota zeta
      end
    | match goal with
      | |- context [match ?o with Some _ => _ | None => _ end] =>
          is_var o; destruct o; cbv beta iota zeta
      end
    | match goal with
      | |- context [if ?b then _ else _] => destruct b eqn:?; cbv beta iota zeta
      end ].

Ltac run_paths h :=
  unfold pathCredsCreateRead, pathCredsCreateRead_locked;
  repeat run_step h; simpl.

(** Whatever the backend's methods return, the handler's calls respect the
    mutex: the lock is taken at most once and only when free, every call
    to the cache and to the database object is made with the lock held,
    and the lock is released before the handler returns, on the error
    paths and on the paths that end in a panic as well. *)
Theorem creds_lock_discipline {W} (h : handler backend W) (w : W)
    (req : Request) (data : FieldData) :
  lock_discipline false
    (run h (pathCredsCreateRead SecretCreds req data) w).2 = true ∧
  length (List.filter is_lock
            (run h (pathCredsCreateRead SecretCreds req data) w).2) ≤ 1.
Proof. run_paths h; split; (reflexivity || lia). Qed.

(** Whatever the backend's methods return, the handler calls [CreateUser]
    at most once and never calls the credential hooks [GenerateUsername]
    and [GeneratePassword] itself. *)
Theorem creds_create_user_once {W} (h : handler backend W) (w : W)
    (req : Request) (data : FieldData) :
  length (List.filter is_create_user
            (run h (pathCredsCreateRead SecretCreds req data) w).2) ≤ 1 ∧
  existsb is_generate_call
    (run h (pathCredsCreateRead SecretCreds req data) w).2 = false.
Proof. run_paths h; split; (reflexivity || lia). Qed.

(** The handler dereferences the configuration and the database object
    without testing them for nil.  When the accessor [DatabaseConfig] and
    the cache [getOrCreateDBObj] never return a nil value together with a
    nil error, the handler does not panic, and it hands back a response or
    an error, never both and never neither; a response that carries a
    secret is handed back only after a [CreateUser] call. *)
Theorem creds_result_shape {W} (h : handler backend W) (w : W)
    (req : Request) (data : FieldData) :
  (∀ s name w0, (h _ (b_DatabaseConfig s name) w0).2 ≠ (None, None)) →
  (∀ s name w0, (h _ (b_getOrCreateDBObj s name) w0).2 ≠ (None, None)) →
  result_shape (run h (pathCredsCreateRead SecretCreds req data) w).1.2
               (run h (pathCredsCreateRead SecretCreds req data) w).2.
Proof.
  intros Hcfg Hdb. run_paths h; auto;
    match goal with
    | H : h _ (b_DatabaseConfig ?s ?n) ?w0 = (_, (None, None)) |- _ =>
        apply (Hcfg s n w0); by rewrite H
    | H : h _ (b_getOrCreateDBObj ?s ?n) ?w0 = (_, (None, None)) |- _ =>
        apply (Hdb s n w0); by rewrite H
    end.
Qed.

(** When the role accessor fails, its error is returned as it is; when it
    finds no role, the handler answers the error response
    ["unknown role: <name>"] with a nil error.  In both cases the role
    accessor is the only call made. *)
Theorem creds_role_lookup_fails {W} (h : handler backend W) (w w1 : W)
    (req : Request) (data : FieldData) :
  (∀ role err,
     h _ (b_Role (req_Storage req) (Get data "name")) w = (w1, (role, Some err)) →
     run h (pathCredsCreateRead SecretCreds req data) w =
       (w1, Return None (Some err),
        [Ev (b_Role (req_Storage req) (Get data "name"))])) ∧
  (h _ (b_Role (req_Storage req) (Get data "name")) w = (w1, (None, None)) →
   run h (pathCredsCreateRead SecretCreds req data) w =
     (w1, Return (Some (ErrorResponse ("unknown role: " +:+ Get data "name"))) None,
      [Ev (b_Role (req_Storage req) (Get data "name"))])).
Proof.
  split.
  - intros role err Hrole. unfold pathCredsCreateRead.
    rewrite run_perform_bind, Hrole. reflexivity.
  - intros Hrole. unfold pathCredsCreateRead.
    rewrite run_perform_bind, Hrole. reflexivity.
Qed.

(** When the cache cannot return the database object, the handler returns
    an error whose message names the configuration and quotes the cause;
    it has released the lock, and has neither read the clock nor called a
    database object. *)
Theorem creds_cache_error {W} (h : handler backend W) (w w1 w2 w3 w4 w5 : W)
    (req : Request) (data : FieldData) (role : roleEntry) (cfg : DatabaseConfig)
    (db : option handle) (cause : error) :
  h _ (b_Role (req_Storage req) (Get data "name")) w = (w1, (Some role, None)) →
  h _ (b_DatabaseConfig (req_Storage req) (DBName role)) w1 = (w2, (Some cfg, None)) →
  "*" ∈ AllowedRoles cfg ∨ Get data "name" ∈ AllowedRoles cfg →
  h _ b_Lock w2 = (w3, ()) →
  h _ (b_getOrCreateDBObj (req_Storage req) (DBName role)) w3 = (w4, (db, Some cause)) →
  h _ b_Unlock w4 = (w5, ()) →
  run h (pathCredsCreateRead SecretCreds req data) w =
    (w5,
     Return None
       (Some (errorString ("cound not retrieve db with name: " +:+ DBName role +:+
                           ", got error: " +:+ Error cause))),
     [Ev (b_Role (req_Storage req) (Get data "name"));
      Ev (b_DatabaseConfig (req_Storage req) (DBName role));
      Ev b_Lock;
      Ev (b_getOrCreateDBObj (req_Storage req) (DBName role));
      Ev b_Unlock]).
Proof.
  intros Hrole Hcfg Hallowed Hlock Hdb Hunlock.
  unfold pathCredsCreateRead.
  rewrite run_perform_bind, Hrole. cbv beta iota zeta.
  rewrite run_perform_bind, Hcfg. cbv beta iota zeta.
  assert ((negb (StrListContains (AllowedRoles cfg) "*") &&
           negb (StrListContains (AllowedRoles cfg) (Get data "name")))%bool = false)
    as ->.
  { destruct Hallowed as [H%StrListContains_elem_of | H%StrListContains_elem_of];
      rewrite H; [done | apply andb_false_r]. }
  rewrite run_perform_bind, Hlock. cbv beta iota zeta.
  rewrite run_bind. unfold pathCredsCreateRead_locked.
  rewrite run_perform_bind, Hdb. cbv beta iota zeta. simpl.
  rewrite Hunlock. reflexivity.
Qed.

(** When [CreateUser] fails, the handler returns that error as it is and no
    response; it has released the lock. *)
Theorem creds_create_user_error {W} (h : handler backend W)
    (w w1 w2 w3 w4 w5 w6 w7 : W)
    (req : Request) (data : FieldData) (role : roleEntry) (cfg : DatabaseConfig)
    (db : handle) (now : Z) (username password : string) (cause : error) :
  h _ (b_Role (req_Storage req) (Get data "name")) w = (w1, (Some role, None)) →
  h _ (b_DatabaseConfig (req_Storage req) (DBName role)) w1 = (w2, (Some cfg, None)) →
  "*" ∈ AllowedRoles cfg ∨ Get data "name" ∈ AllowedRoles cfg →
  h _ b_Lock w2 = (w3, ()) →
  h _ (b_getOrCreateDBObj (req_Storage req) (DBName role)) w3 = (w4, (Some db, None)) →
  h _ time_Now w4 = (w5, now) →
  h _ (db_CreateUser db (Statements role) (DisplayName req) (now + DefaultTTL role)) w5 =
    (w6, (username, password, Some cause)) →
  h _ b_Unlock w6 = (w7, ()) →
  run h (pathCredsCreateRead SecretCreds req data) w =
    (w7, Return None (Some cause),
     [Ev (b_Role (req_Storage req) (Get data "name"));
      Ev (b_DatabaseConfig (req_Storage req) (DBName role));
      Ev b_Lock;
      Ev (b_getOrCreateDBObj (req_Storage req) (DBName role));
      Ev time_Now;
      Ev (db_CreateUser db (Statements role) (DisplayName req)
            (now + DefaultTTL role));
      Ev b_Unlock]).
Proof.
  intros Hrole Hcfg Hallowed Hlock Hdb Hnow Hcreate Hunlock.
  unfold pathCredsCreateRead.
  rewrite run_perform_bind, Hrole. cbv beta iota zeta.
  rewrite run_perform_bind, Hcfg. cbv beta iota zeta.
  assert ((negb (StrListContains (AllowedRoles cfg) "*") &&
           negb (StrListContains (AllowedRoles cfg) (Get data "name")))%bool = false)
    as ->.
  { destruct Hallowed as [H%StrListContains_elem_of | H%StrListContains_elem_of];
      rewrite H; [done | apply andb_false_r]. }
  rewrite run_perform_bind, Hlock. cbv beta iota zeta.
  rewrite run_bind. unfold pathCredsCreateRead_locked.
  rewrite run_perform_bind, Hdb. cbv beta iota zeta.
  rewrite run_perform_bind, Hnow. cbv beta iota zeta.
  rewrite run_perform_bind, Hcreate. cbv beta iota zeta. simpl.
  rewrite Hunlock. reflexivity.
Qed.

End creds_paths.

Section creds_path_scenarios.

Import database scenario scenario_failures.

(** Storage that cannot be read, and a role that is not stored. *)
Lemma creds_role_lookup_fails_witness :
  (flaky_backend (Some (errorString "storage: read failed")) None None _
     (b_Role storage (Get {[ "name" := "readonly" ]} "name")) world0 =
     (world0, (None, Some (errorString "storage: read failed"))) ∧
   run (flaky_backend (Some (errorString "storage: read failed")) None None)
     (pathCredsCreateRead creds request {[ "name" := "readonly" ]}) world0 =
     (world0, Return None (Some (errorString "storage: read failed")),
      [Ev (b_Role storage "readonly")])) ∧
  (stub_backend _ (b_Role storage (Get {[ "name" := "nobody" ]} "name")) world0 =
     (world0, (None, None)) ∧
   run stub_backend
     (pathCredsCreateRead creds request {[ "name" := "nobody" ]}) world0 =
     (world0, Return (Some (ErrorResponse "unknown role: nobody")) None,
      [Ev (b_Role storage "nobody")])).
Proof.
  split.
  - split; [reflexivity|].
    exact (proj1 (creds_role_lookup_fails creds
                    (flaky_backend (Some (errorString "storage: read failed")) None None)
                    world0 world0 request {[ "name" := "readonly" ]})
             None _ eq_refl).
  - split; [reflexivity|].
    exact (proj2 (creds_role_lookup_fails creds stub_backend world0 world0
                    request {[ "name" := "nobody" ]}) eq_refl).
Defined.

(** The plugin behind ["pg"] cannot be started. *)
Lemma creds_cache_error_witness :
  let h := flaky_backend None (Some (errorString "plugin exited")) None in
  h _ (b_Role storage (Get {[ "name" := "readonly" ]} "name")) world0 =
    (world0, (Some readonly_role, None)) ∧
  h _ (b_DatabaseConfig storage "pg") world0 = (world0, (Some pg_config, None)) ∧
  (Get {[ "name" := "readonly" ]} "name" ∈ AllowedRoles pg_config) ∧
  h _ b_Lock world0 = (world0, ()) ∧
  h _ (b_getOrCreateDBObj storage "pg") world0 =
    (world0, (None, Some (errorString "plugin exited"))) ∧
  h _ b_Unlock world0 = (world0, ()) ∧
  run h (pathCredsCreateRead creds request {[ "name" := "readonly" ]}) world0 =
    (world0,
     Return None
       (Some (errorString
                "cound not retrieve db with name: pg, got error: plugin exited")),
     [Ev (b_Role storage "readonly"); Ev (b_DatabaseConfig storage "pg");
      Ev b_Lock; Ev (b_getOrCreateDBObj storage "pg"); Ev b_Unlock]).
Proof.
  intros h.
  assert (Hin : Get {[ "name" := "readonly" ]} "name" ∈ AllowedRoles pg_config)
    by (by apply list_elem_of_singleton).
  split; [reflexivity|]. split; [reflexivity|]. split; [exact Hin|].
  split; [reflexivity|]. split; [reflexivity|]. split; [reflexivity|].
  exact (creds_cache_error creds h world0 world0 world0 world0 world0 world0
           request {[ "name" := "readonly" ]} readonly_role pg_config None
           (errorString "plugin exited")
           eq_refl eq_refl (or_intror Hin) eq_refl eq_refl eq_refl).
Defined.

(** The database refuses to create the user. *)
Lemma creds_create_user_error_witness :
  let h := flaky_backend None None (Some (errorString "pq: role already exists")) in
  h _ (b_Role storage (Get {[ "name" := "readonly" ]} "name")) world0 =
    (world0, (Some readonly_role, None)) ∧
  h _ (b_DatabaseConfig storage "pg") world0 = (world0, (Some pg_config, None)) ∧
  (Get {[ "name" := "readonly" ]} "name" ∈ AllowedRoles pg_config) ∧
  h _ b_Lock world0 = (world0, ()) ∧
  h _ (b_getOrCreateDBObj storage "pg") world0 = (world_cached, (Some 0, None)) ∧
  h _ time_Now world_cached = (world_cached, 1000%Z) ∧
  h _ (db_CreateUser 0 stmts "token" (1000 + 3600)) world_cached =
    (world_cached, ("", "", Some (errorString "pq: role already exists"))) ∧
  h _ b_Unlock world_cached = (world_cached, ()) ∧
  run h (pathCredsCreateRead creds request {[ "name" := "readonly" ]}) world0 =
    (world_cached, Return None (Some (errorString "pq: role already exists")),
     [Ev (b_Role storage "readonly"); Ev (b_DatabaseConfig storage "pg");
      Ev b_Lock; Ev (b_getOrCreateDBObj storage "pg"); Ev time_Now;
      Ev (db_CreateUser 0 stmts "token" (1000 + 3600)); Ev b_Unlock]).
Proof.
  intros h.
  assert (Hin : Get {[ "name" := "readonly" ]} "name" ∈ AllowedRoles pg_config)
    by (by apply list_elem_of_singleton).
  split; [reflexivity|]. split; [reflexivity|]. split; [exact Hin|].
  split; [reflexivity|]. split; [reflexivity|]. split; [reflexivity|].
  split; [reflexivity|]. split; [reflexivity|].
  exact (creds_create_user_error creds h world0 world0 world0 world0
           world_cached world_cached world_cached world_cached
           request {[ "name" := "readonly" ]} readonly_role pg_config 0 1000
           "" "" (errorString "pq: role already exists")
           eq_refl eq_refl (or_intror Hin) eq_refl eq_refl eq_refl eq_refl eq_refl).
Defined.

(** The stub backend returns a configuration or an error, and a database
    object or an error. *)
Lemma creds_result_shape_witness :
  (∀ s name w0, (stub_backend _ (b_DatabaseConfig s name) w0).2 ≠ (None, None)) ∧
  (∀ s name w0, (stub_backend _ (b_getOrCreateDBObj s name) w0).2 ≠ (None, None)) ∧
  creds_protocol.result_shape
    (run stub_backend
       (pathCredsCreateRead creds request {[ "name" := "readonly" ]}) world0).1.2
    (run stub_backend
       (pathCredsCreateRead creds request {[ "name" := "readonly" ]}) world0).2 ∧
  creds_protocol.result_shape
    (run stub_backend
       (pathCredsCreateRead creds request {[ "name" := "orphan" ]}) world0).1.2
    (run stub_backend
       (pathCredsCreateRead creds request {[ "name" := "orphan" ]}) world0).2.
Proof.
  assert (Hcfg : ∀ s name w0,
            (stub_backend _ (b_DatabaseConfig s name) w0).2 ≠ (None, None)).
  { intros s name w0. simpl. unfold getDatabaseConfig.
    by destruct (configs s !! name). }
  assert (Hdb : ∀ s name w0,
            (stub_backend _ (b_getOrCreateDBObj s name) w0).2 ≠ (None, None)).
  { intros s name w0. simpl.
    destruct (cache w0 !! name); [done|]. by destruct (configs s !! name). }
  split; [exact Hcfg|]. split; [exact Hdb|]. split.
  - exact (creds_result_shape creds stub_backend world0 request
             {[ "name" := "readonly" ]} Hcfg Hdb).
  - exact (creds_result_shape creds stub_backend world0 request
             {[ "name" := "orphan" ]} Hcfg Hdb).
Defined.

End creds_path_scenarios.

(** ** More on statement templating *)

Section template_extras.

Import scenario scenario_failures.

Lemma step_no_lbrace (tpl : string) (kv : string * string) :
  has_char "{" tpl = false → queryHelper_step tpl kv = tpl.
Proof.
  intros Htpl. rewrite <-(append_nil_r tpl) at 1.
  by rewrite step_text, step_nil, append_nil_r.
Qed.

(** A template in which ['{'] does not occur is returned unchanged,
    whatever the keys and the values of the map are. *)
Theorem queryHelper_no_placeholder (tpl : string) (data : gmap string string)
    (out : string) :
  has_char "{" tpl = false → queryHelper tpl data out → out = tpl.
Proof.
  intros Htpl (entries & _ & ->). unfold queryHelper_range.
  induction entries as [|kv entries IH]; [done|].
  simpl. by rewrite step_no_lbrace.
Qed.

Lemma queryHelper_no_placeholder_witness :
  has_char "{" "SELECT 1" = false ∧
  queryHelper "SELECT 1" nested_data
    (queryHelper_range "SELECT 1" [("a", "{{b}}"); ("b", "x")]) ∧
  queryHelper_range "SELECT 1" [("a", "{{b}}"); ("b", "x")] = "SELECT 1".
Proof.
  assert (H : queryHelper "SELECT 1" nested_data
                (queryHelper_range "SELECT 1" [("a", "{{b}}"); ("b", "x")])).
  { eexists. split; [apply nested_data_order | reflexivity]. }
  split; [reflexivity|]. split; [exact H|].
  exact (queryHelper_no_placeholder "SELECT 1" nested_data _ eq_refl H).
Defined.

Lemma subst_subst (data : gmap string string) (cs : list chunk) :
  subst data (subst data cs) = subst data cs.
Proof.
  unfold subst. rewrite <-list_fmap_compose. apply list_fmap_ext.
  intros _ [w|k] _; simpl; [done|].
  destruct (data !! k) as [v|] eqn:Hk; simpl; [done | by rewrite Hk].
Qed.

Lemma subst_union (m1 m2 : gmap string string) (cs : list chunk) :
  subst m2 (subst m1 cs) = subst (m1 ∪ m2) cs.
Proof.
  unfold subst. rewrite <-list_fmap_compose. apply list_fmap_ext.
  intros _ [w|k] _; simpl; [done|].
  destruct (m1 !! k) as [v|] eqn:Hk; simpl.
  - by rewrite (lookup_union_Some_l _ _ _ _ Hk).
  - by rewrite lookup_union_r.
Qed.

(** On a template of brace-free text and placeholders with brace-free
    keys, with brace-free keys and values in the map, substituting into the
    result again changes nothing. *)
Theorem queryHelper_idempotent (cs : list chunk) (data : gmap string string)
    (out out' : string) :
  Forall (λ c, chunk_wf c = true) cs →
  map_Forall (λ k v, brace_free k = true ∧ brace_free v = true) data →
  queryHelper (render cs) data out →
  queryHelper out data out' →
  out' = out.
Proof.
  intros Hcs Hdata (l1 & Hl1 & ->) (l2 & Hl2 & ->).
  assert (Hwf : Forall (λ c, chunk_wf c = true) (subst data cs)).
  { apply subst_wf; [|done]. intros k v Hkv. by destruct (Hdata k v Hkv). }
  rewrite (queryHelper_render data l1 cs Hl1 Hdata Hcs).
  by rewrite (queryHelper_render data l2 (subst data cs) Hl2 Hdata Hwf), subst_subst.
Qed.

Lemma queryHelper_idempotent_witness :
  Forall (λ c, chunk_wf c = true) grant_template ∧
  map_Forall (λ k v, brace_free k = true ∧ brace_free v = true) user_data ∧
  queryHelper (render grant_template) user_data
    "GRANT {{privs}} TO alice -- alice" ∧
  queryHelper "GRANT {{privs}} TO alice -- alice" user_data
    (queryHelper_range "GRANT {{privs}} TO alice -- alice"
       [("name", "alice"); ("password", "p@ss")]) ∧
  queryHelper_range "GRANT {{privs}} TO alice -- alice"
    [("name", "alice"); ("password", "p@ss")] =
  "GRANT {{privs}} TO alice -- alice".
Proof.
  assert (Hcs : Forall (λ c, chunk_wf c = true) grant_template)
    by (repeat constructor).
  assert (H1 : queryHelper (render grant_template) user_data
                 "GRANT {{privs}} TO alice -- alice").
  { exists [("name", "alice"); ("password", "p@ss")].
    split; [apply user_data_order | reflexivity]. }
  assert (H2 : queryHelper "GRANT {{privs}} TO alice -- alice" user_data
                 (queryHelper_range "GRANT {{privs}} TO alice -- alice"
                    [("name", "alice"); ("password", "p@ss")])).
  { eexists. split; [apply user_data_order | reflexivity]. }
  split; [exact Hcs|]. split; [exact user_data_brace_free|].
  split; [exact H1|]. split; [exact H2|].
  exact (queryHelper_idempotent grant_template user_data _ _
           Hcs user_data_brace_free H1 H2).
Defined.

(** On such templates, substituting with one map and then with a second
    one gives what one substitution with their union gives, the first map
    taking precedence on common keys. *)
Theorem queryHelper_staged (cs : list chunk) (m1 m2 : gmap string string)
    (out1 out2 out : string) :
  Forall (λ c, chunk_wf c = true) cs →
  map_Forall (λ k v, brace_free k = true ∧ brace_free v = true) m1 →
  map_Forall (λ k v, brace_free k = true ∧ brace_free v = true) m2 →
  queryHelper (render cs) m1 out1 →
  queryHelper out1 m2 out2 →
  queryHelper (render cs) (m1 ∪ m2) out →
  out2 = out.
Proof.
  intros Hcs Hm1 Hm2 (l1 & Hl1 & ->) (l2 & Hl2 & ->) (l & Hl & ->).
  assert (Hwf : Forall (λ c, chunk_wf c = true) (subst m1 cs)).
  { apply subst_wf; [|done]. intros k v Hkv. by destruct (Hm1 k v Hkv). }
  rewrite (queryHelper_render m1 l1 cs Hl1 Hm1 Hcs).
  rewrite (queryHelper_render m2 l2 (subst m1 cs) Hl2 Hm2 Hwf), subst_union.
  by rewrite (queryHelper_render (m1 ∪ m2) l cs Hl (map_Forall_union_2 _ _ _ Hm1 Hm2) Hcs).
Qed.

Lemma queryHelper_staged_witness :
  Forall (λ c, chunk_wf c = true) create_user_template ∧
  map_Forall (λ k v, brace_free k = true ∧ brace_free v = true) name_data ∧
  map_Forall (λ k v, brace_free k = true ∧ brace_free v = true) password_data ∧
  queryHelper (render create_user_template) name_data
    "CREATE USER alice WITH PASSWORD {{password}}" ∧
  queryHelper "CREATE USER alice WITH PASSWORD {{password}}" password_data
    "CREATE USER alice WITH PASSWORD p@ss" ∧
  queryHelper (render create_user_template) (name_data ∪ password_data)
    (queryHelper_range (render create_user_template)
       (map_to_list (name_data ∪ password_data))) ∧
  "CREATE USER alice WITH PASSWORD p@ss" =
  queryHelper_range (render create_user_template)
    (map_to_list (name_data ∪ password_data)).
Proof.
  assert (Hcs : Forall (λ c, chunk_wf c = true) create_user_template)
    by (repeat constructor).
  assert (Hm1 : map_Forall (λ k v, brace_free k = true ∧ brace_free v = true)
                  name_data) by (by apply map_Forall_singleton).
  assert (Hm2 : map_Forall (λ k v, brace_free k = true ∧ brace_free v = true)
                  password_data) by (by apply map_Forall_singleton).
  assert (H1 : queryHelper (render create_user_template) name_data
                 "CREATE USER alice WITH PASSWORD {{password}}").
  { eexists. split; [apply range_order_singleton | reflexivity]. }
  assert (H2 : queryHelper "CREATE USER alice WITH PASSWORD {{password}}"
                 password_data "CREATE USER alice WITH PASSWORD p@ss").
  { eexists. split; [apply range_order_singleton | reflexivity]. }
  assert (H3 : queryHelper (render create_user_template) (name_data ∪ password_data)
                 (queryHelper_range (render create_user_template)
                    (map_to_list (name_data ∪ password_data)))).
  { eexists. split; [by unfold range_order | reflexivity]. }
  split; [exact Hcs|]. split; [exact Hm1|]. split; [exact Hm2|].
  split; [exact H1|]. split; [exact H2|]. split; [exact H3|].
  exact (queryHelper_staged create_user_template name_data password_data _ _ _
           Hcs Hm1 Hm2 H1 H2 H3).
Defined.

End template_extras.

(** ** More on the factory *)

Section factory_extras.

Import dbs.

Context {sqlDetails cassandraDetails : Type}.
Variable Decode_sql : gmap string any → sqlDetails + error.
Variable Decode_cassandra : gmap string any → cassandraDetails + error.

(** [Factory] returns an object or an error, never both and never
    neither. *)
Theorem Factory_handle_xor_error (conf : DatabaseConfig) :
  match Factory Decode_sql Decode_cassandra conf with
  | (Some _, None) | (None, Some _) => True
  | (Some _, Some _) | (None, None) => False
  end.
Proof.
  unfold Factory.
  destruct (String.eqb _ postgreSQLTypeName);
    [by destruct (Decode_sql _)|].
  destruct (String.eqb _ cassandraTypeName); [by destruct (Decode_cassandra _)|done].
Qed.

(** An object that [Factory] returned tells the type it was asked for, and
    holds the configuration it was built from and the details decoded
    from it; a PostgreSQL object limits display names to 23 and usernames
    to 63 characters. *)
Theorem Factory_handle_origin (conf : DatabaseConfig) (db : backend)
    (err : option error) :
  Factory Decode_sql Decode_cassandra conf = (Some db, err) →
  err = None ∧
  match db with
  | PostgreSQL connProducer credsProducer =>
      DatabaseType conf = "postgres" ∧
      sql_config connProducer = conf ∧
      Decode_sql (ConnectionDetails conf) = inl (sql_connDetails connProducer) ∧
      credsProducer = {| displayNameLen := 23; usernameLen := 63 |}
  | Cassandra connProducer _ =>
      DatabaseType conf = "cassandra" ∧
      cassandra_config connProducer = conf ∧
      Decode_cassandra (ConnectionDetails conf) =
        inl (cassandra_connDetails connProducer)
  end.
Proof.
  unfold Factory, postgreSQLTypeName, cassandraTypeName.
  destruct (String.eqb_spec (DatabaseType conf) "postgres") as [Hpg|Hpg].
  { destruct (Decode_sql _) as [details|e] eqn:Hd; intros [= <- <-]; by simpl. }
  destruct (String.eqb_spec (DatabaseType conf) "cassandra") as [Hcas|Hcas].
  { destruct (Decode_cassandra _) as [details|e] eqn:Hd; intros [= <- <-]; by simpl. }
  intros [=].
Qed.

(** An error that [Factory] returned is the decode error of the backend
    the type selects, or [ErrUnsupportedDatabaseType] for a type that is
    neither ["postgres"] nor ["cassandra"]; no object comes with it. *)
Theorem Factory_error_origin (conf : DatabaseConfig) (db : option backend)
    (err : error) :
  Factory Decode_sql Decode_cassandra conf = (db, Some err) →
  db = None ∧
  ((DatabaseType conf = "postgres" ∧
    Decode_sql (ConnectionDetails conf) = inr err) ∨
   (DatabaseType conf = "cassandra" ∧
    Decode_cassandra (ConnectionDetails conf) = inr err) ∨
   (DatabaseType conf ≠ "postgres" ∧ DatabaseType conf ≠ "cassandra" ∧
    err = ErrUnsupportedDatabaseType)).
Proof.
  unfold Factory, postgreSQLTypeName, cassandraTypeName.
  destruct (String.eqb_spec (DatabaseType conf) "postgres") as [Hpg|Hpg].
  { destruct (Decode_sql _) as [details|e] eqn:Hd; intros [= <- <-]; auto. }
  destruct (String.eqb_spec (DatabaseType conf) "cassandra") as [Hcas|Hcas].
  { destruct (Decode_cassandra _) as [details|e] eqn:Hd; intros [= <- <-]; auto. }
  intros [= <- <-]. auto 6.
Qed.

End factory_extras.

Lemma Factory_handle_origin_witness :
  let pg := scenario.conf_of "postgres" {[ "connection_url" := AString "postgres://db" ]} in
  let db := dbs.PostgreSQL
              {| dbs.sql_config := pg; dbs.sql_connDetails := "postgres://db" |}
              {| dbs.displayNameLen := 23; dbs.usernameLen := 63 |} in
  dbs.Factory scenario.decode_url scenario.decode_hosts pg = (Some db, None) ∧
  dbs.DatabaseType pg = "postgres" ∧
  scenario.decode_url (dbs.ConnectionDetails pg) = inl "postgres://db".
Proof.
  intros pg db.
  pose proof (Factory_handle_origin scenario.decode_url scenario.decode_hosts
                pg db None eq_refl) as (_ & Htype & _ & Hdec & _).
  split; [reflexivity|]. split; [exact Htype | exact Hdec].
Defined.

Lemma Factory_error_origin_witness :
  let unknown := scenario.conf_of "mysql" ∅ in
  dbs.Factory scenario.decode_url scenario.decode_hosts unknown =
    (None, Some ErrUnsupportedDatabaseType) ∧
  (@None (@dbs.backend string string) = None) ∧
  ((dbs.DatabaseType unknown = "postgres" ∧
    scenario.decode_url (dbs.ConnectionDetails unknown) =
      inr ErrUnsupportedDatabaseType) ∨
   (dbs.DatabaseType unknown = "cassandra" ∧
    scenario.decode_hosts (dbs.ConnectionDetails unknown) =
      inr ErrUnsupportedDatabaseType) ∨
   (dbs.DatabaseType unknown ≠ "postgres" ∧
    dbs.DatabaseType unknown ≠ "cassandra" ∧
    ErrUnsupportedDatabaseType = ErrUnsupportedDatabaseType)).
Proof.
  intros unknown. split; [reflexivity|].
  exact (Factory_error_origin scenario.decode_url scenario.decode_hosts
           unknown None ErrUnsupportedDatabaseType eq_refl).
Defined.

(** ** More on the plugin stubs *)

Section plugin_extras.

Import dbs_plugin.

(** When the call does not come back with a reply, whatever the transport
    is: [Type] hides the failure and answers the bare ["plugin-"];
    [CreateUser], [RenewUser], [RevokeUser], [Initialize] and [Close]
    return the error of the call as it is; the generators return the
    empty string with that error.  Each stub has made one call and has not
    killed the process. *)
Theorem client_stubs_on_failed_call {W} (h : handler transport W) (w w1 : W)
    (err : option error) :
  (h _ (rpc_Call "Plugin.Type" WEmpty) w = (w1, (None, err)) →
   run h databasePluginRPCClient.Type_ w =
     (w1, "plugin-", [Ev (rpc_Call "Plugin.Type" WEmpty)])) ∧
  (∀ st u p e,
     let call := rpc_Call "Plugin.CreateUser" (WCreateUserRequest
                   {| cu_Statements := st; cu_Username := u;
                      cu_Password := p; cu_Expiration := e |}) in
     h _ call w = (w1, (None, err)) →
     run h (databasePluginRPCClient.CreateUser st u p e) w = (w1, err, [Ev call])) ∧
  (∀ st u e,
     let call := rpc_Call "Plugin.RenewUser" (WRenewUserRequest
                   {| rn_Statements := st; rn_Username := u; rn_Expiration := e |}) in
     h _ call w = (w1, (None, err)) →
     run h (databasePluginRPCClient.RenewUser st u e) w = (w1, err, [Ev call])) ∧
  (∀ st u,
     let call := rpc_Call "Plugin.RevokeUser" (WRevokeUserRequest
                   {| rv_Statements := st; rv_Username := u |}) in
     h _ call w = (w1, (None, err)) →
     run h (databasePluginRPCClient.RevokeUser st u) w = (w1, err, [Ev call])) ∧
  (∀ conf,
     h _ (rpc_Call "Plugin.Initialize" (WConf conf)) w = (w1, (None, err)) →
     run h (databasePluginRPCClient.Initialize conf) w =
       (w1, err, [Ev (rpc_Call "Plugin.Initialize" (WConf conf))])) ∧
  (h _ (rpc_Call "Plugin.Close" WEmpty) w = (w1, (None, err)) →
   run h databasePluginRPCClient.Close w =
     (w1, err, [Ev (rpc_Call "Plugin.Close" WEmpty)])) ∧
  (∀ d,
     h _ (rpc_Call "Plugin.GenerateUsername" (WString d)) w = (w1, (None, err)) →
     run h (databasePluginRPCClient.GenerateUsername d) w =
       (w1, ("", err), [Ev (rpc_Call "Plugin.GenerateUsername" (WString d))])) ∧
  (h _ (rpc_Call "Plugin.GeneratePassword" WEmpty) w = (w1, (None, err)) →
   run h databasePluginRPCClient.GeneratePassword w =
     (w1, ("", err), [Ev (rpc_Call "Plugin.GeneratePassword" WEmpty)])) ∧
  (∀ d,
     h _ (rpc_Call "Plugin.GenerateExpiration" (WDuration d)) w = (w1, (None, err)) →
     run h (databasePluginRPCClient.GenerateExpiration d) w =
       (w1, ("", err), [Ev (rpc_Call "Plugin.GenerateExpiration" (WDuration d))])).
Proof.
  repeat split; intros;
    repeat match goal with x := _ |- _ => subst x end;
    unfold databasePluginRPCClient.Type_, databasePluginRPCClient.CreateUser,
      databasePluginRPCClient.RenewUser, databasePluginRPCClient.RevokeUser,
      databasePluginRPCClient.Initialize, databasePluginRPCClient.Close,
      databasePluginRPCClient.GenerateUsername,
      databasePluginRPCClient.GeneratePassword,
      databasePluginRPCClient.GenerateExpiration;
    cbv zeta; rewrite run_perform_bind;
    match goal with H : h _ _ _ = _ |- _ => rewrite H end; reflexivity.
Qed.

(** Over a working connection [DatabasePluginClient.Close] reports success
    whatever the implementation's [Close] returned: the implementation is
    closed, the process is killed, and the caller gets nil. *)
Theorem plugin_Close_reports_success {S} (impl : handler DatabaseType S)
    (w : Host S) (s' : S) (err : option error) :
  link w = None →
  impl _ impl_Close (remote w) = (s', err) →
  run (plugin_transport impl) DatabasePluginClient.Close w =
    (kill (delivered w s'), None,
     [Ev (rpc_Call "Plugin.Close" WEmpty); Ev plugin_Kill]).
Proof.
  intros Hlink Himpl. unfold DatabasePluginClient.Close.
  rewrite run_bind. unfold databasePluginRPCClient.Close.
  rewrite run_perform_bind. simpl. unfold call_remote. rewrite Hlink. simpl.
  rewrite Himpl. reflexivity.
Qed.

Lemma client_stubs_on_failed_call_witness :
  let h := plugin_transport scenario.sample_impl in
  let e := Some (errorString "unexpected EOF") in
  h _ (rpc_Call "Plugin.Type" WEmpty) scenario.host_crashed =
    (scenario.host_crashed, (None, e)) ∧
  run h databasePluginRPCClient.Type_ scenario.host_crashed =
    (scenario.host_crashed, "plugin-", [Ev (rpc_Call "Plugin.Type" WEmpty)]) ∧
  h _ (rpc_Call "Plugin.GeneratePassword" WEmpty) scenario.host_crashed =
    (scenario.host_crashed, (None, e)) ∧
  run h databasePluginRPCClient.GeneratePassword scenario.host_crashed =
    (scenario.host_crashed, ("", e),
     [Ev (rpc_Call "Plugin.GeneratePassword" WEmpty)]).
Proof.
  intros h e.
  pose proof (client_stubs_on_failed_call h scenario.host_crashed
                scenario.host_crashed e) as (HType & _ & _ & _ & _ & _ & _ & HPw & _).
  split; [reflexivity|]. split; [exact (HType eq_refl)|].
  split; [reflexivity|]. exact (HPw eq_refl).
Defined.

Lemma plugin_Close_reports_success_witness :
  link scenario.host_up = None ∧
  scenario.sample_impl _ impl_Close (remote scenario.host_up) =
    (1, Some (errorString "pool: close failed")) ∧
  run (plugin_transport scenario.sample_impl) DatabasePluginClient.Close
    scenario.host_up =
    (kill (delivered scenario.host_up 1), None,
     [Ev (rpc_Call "Plugin.Close" WEmpty); Ev plugin_Kill]).
Proof.
  split; [reflexivity|]. split; [reflexivity|].
  exact (plugin_Close_reports_success scenario.sample_impl scenario.host_up 1
           (Some (errorString "pool: close failed")) eq_refl eq_refl).
Defined.

End plugin_extras.

(** ** Starting a plugin *)

Section startup_extras.

Import plugin_startup.

Ltac start_step h :=
  first
    [ rewrite run_perform_bind;
      match goal with
      | |- context [h ?X ?e ?w] =>
          let w' := fresh "w" in
          let x := fresh "x" in
          destruct (h X e w) as [w' x] eqn:?; cbv beta iota zeta
      end
    | match goal with
      | x : (_ * _)%type |- _ => destruct x; cbv beta iota zeta
      end
    | match goal with
      | |- context [match ?o with Some _ => _ | None => _ end] =>
          is_var o; destruct o; cbv beta iota zeta
      end
    | match goal with
      | |- context [match ?r with raw_nil => _ | _ => _ end] =>
          is_var r; destruct r; cbv beta iota zeta
      end ].

(** [newPluginClient] makes no [Kill] call of its own, on any path and
    whatever the calls into go-plugin return: after [Run] succeeded, a
    failure of [Client] or of [Dispense] is returned without the function
    calling [client.Kill()]. *)
Theorem newPluginClient_never_kills {W} (h : handler startup W) (w : W)
    (sys pluginRunner : nat) :
  existsb is_kill (run h (newPluginClient sys pluginRunner) w).2 = false.
Proof. unfold newPluginClient. cbv zeta. repeat start_step h; reflexivity. Qed.

(** Each of the three steps that fails ends [newPluginClient] with that
    error and no handle, and no later step is attempted. *)
Theorem newPluginClient_failure {W} (h : handler startup W) (w w1 w2 w3 : W)
    (sys pluginRunner : nat) (err : error) :
  let run_call := pluginRunner_Run pluginRunner sys
                    {[ "database" := {| impl := None |} ]} handshakeConfig [] in
  (∀ client,
     h _ run_call w = (w1, (client, Some err)) →
     run h (newPluginClient sys pluginRunner) w =
       (w1, Started None (Some err), [Ev run_call])) ∧
  (∀ client rpcClient,
     h _ run_call w = (w1, (Some client, None)) →
     h _ (client_Client client) w1 = (w2, (rpcClient, Some err)) →
     run h (newPluginClient sys pluginRunner) w =
       (w2, Started None (Some err), [Ev run_call; Ev (client_Client client)])) ∧
  (∀ client rpcClient raw,
     h _ run_call w = (w1, (Some client, None)) →
     h _ (client_Client client) w1 = (w2, (Some rpcClient, None)) →
     h _ (rpcClient_Dispense rpcClient "database") w2 = (w3, (raw, Some err)) →
     run h (newPluginClient sys pluginRunner) w =
       (w3, Started None (Some err),
        [Ev run_call; Ev (client_Client client);
         Ev (rpcClient_Dispense rpcClient "database")])).
Proof.
  intros run_call. unfold newPluginClient. cbv zeta. repeat split.
  - intros client Hrun. rewrite run_perform_bind. fold run_call. by rewrite Hrun.
  - intros client rpcClient Hrun Hclient.
    rewrite run_perform_bind. fold run_call. rewrite Hrun. cbv beta iota zeta.
    rewrite run_perform_bind, Hclient. reflexivity.
  - intros client rpcClient raw Hrun Hclient Hdispense.
    rewrite run_perform_bind. fold run_call. rewrite Hrun. cbv beta iota zeta.
    rewrite run_perform_bind, Hclient. cbv beta iota zeta.
    rewrite run_perform_bind, Hdispense. reflexivity.
Qed.

(** When the three steps succeed and the plugin dispensed is the database
    client stub, [newPluginClient] returns a handle made of the process
    that [Run] started and of that stub.  [Run] was given the handshake
    (protocol version 1 and the database plugin's magic cookie) and a
    plugin map whose only entry is ["database"]. *)
Theorem newPluginClient_success {W} (h : handler startup W) (w w1 w2 w3 : W)
    (sys pluginRunner client rpcClient : nat) (stub : databasePluginRPCClient) :
  let run_call := pluginRunner_Run pluginRunner sys
                    {[ "database" := {| impl := None |} ]} handshakeConfig [] in
  h _ run_call w = (w1, (Some client, None)) →
  h _ (client_Client client) w1 = (w2, (Some rpcClient, None)) →
  h _ (rpcClient_Dispense rpcClient "database") w2 =
    (w3, (raw_databasePluginRPCClient stub, None)) →
  run h (newPluginClient sys pluginRunner) w =
    (w3, Started (Some {| client := client; embedded := stub |}) None,
     [Ev run_call; Ev (client_Client client);
      Ev (rpcClient_Dispense rpcClient "database")]).
Proof.
  intros run_call Hrun Hclient Hdispense. unfold newPluginClient. cbv zeta.
  rewrite run_perform_bind. fold run_call. rewrite Hrun. cbv beta iota zeta.
  rewrite run_perform_bind, Hclient. cbv beta iota zeta.
  rewrite run_perform_bind, Hdispense. reflexivity.
Qed.

Lemma newPluginClient_failure_witness :
  let run_call := pluginRunner_Run 2 1
                    {[ "database" := {| impl := None |} ]} handshakeConfig [] in
  scenario_failures.plugin_runtime 2 _ run_call 0 = (0, (Some 7, None)) ∧
  scenario_failures.plugin_runtime 2 _ (client_Client 7) 0 =
    (0, (None, Some (errorString "handshake: wrong magic cookie"))) ∧
  run (scenario_failures.plugin_runtime 2) (newPluginClient 1 2) 0 =
    (0, Started None (Some (errorString "handshake: wrong magic cookie")),
     [Ev run_call; Ev (client_Client 7)]).
Proof.
  intros run_call.
  split; [reflexivity|]. split; [reflexivity|].
  exact (proj1 (proj2 (newPluginClient_failure (scenario_failures.plugin_runtime 2)
                         0 0 0 0 1 2 (errorString "handshake: wrong magic cookie")))
           7 None eq_refl eq_refl).
Defined.

Lemma newPluginClient_success_witness :
  let run_call := pluginRunner_Run 2 1
                    {[ "database" := {| impl := None |} ]} handshakeConfig [] in
  scenario_failures.plugin_runtime 0 _ run_call 0 = (0, (Some 7, None)) ∧
  scenario_failures.plugin_runtime 0 _ (client_Client 7) 0 = (0, (Some 8, None)) ∧
  scenario_failures.plugin_runtime 0 _ (rpcClient_Dispense 8 "database") 0 =
    (0, (raw_databasePluginRPCClient {| rpc_client := 8 |}, None)) ∧
  run (scenario_failures.plugin_runtime 0) (newPluginClient 1 2) 0 =
    (0, Started (Some {| client := 7; embedded := {| rpc_client := 8 |} |}) None,
     [Ev run_call; Ev (client_Client 7); Ev (rpcClient_Dispense 8 "database")]).
Proof.
  intros run_call.
  split; [reflexivity|]. split; [reflexivity|]. split; [reflexivity|].
  exact (newPluginClient_success (scenario_failures.plugin_runtime 0)
           0 0 0 0 1 2 7 8 {| rpc_client := 8 |} eq_refl eq_refl eq_refl).
Defined.

End startup_extras.
